(** * fab/image.py: 16-bit height-map tiles and their compositing

    A shallow embedding of the [Image] class of [fab/image.py].

    Python objects live in a store: an [Image] header (width, height, six
    bounds and a reference to its array) is one kind of object, the memory
    block behind a numpy array another.  A numpy array value is a window on
    a block, so that slicing yields a view that shares the block, as numpy
    does.

    Bounds are Python numbers or [None].  The renderer sets them to floats
    (millimetres), so [/] is true division; numbers are modelled as exact
    rationals, without the rounding of binary floating point, and Python's
    [ZeroDivisionError] is written out.  Cells are integers in the range
    of [numpy.uint16].

    [scipy.ndimage.interpolation.zoom] is a library routine; its embedding
    follows the algorithm of the library for [order=0] (see [zoom]), with
    the lengths and coordinates it computes in doubles taken exactly.

    The first part holds the embedding of the code, the second the
    properties proved of it. *)

From Stdlib Require Import ZArith QArith Qround List Lia.
From stdpp Require Import base option list gmap.

Local Open Scope Z_scope.

(** ** Python numbers *)

Module PyNum.

(** [int(x)]: truncation toward zero. *)
Definition py_int (q : Q) : Z :=
  if Qle_bool 0 q then Qfloor q else Qceiling q.

(** [int(round(x))] as Python 3 evaluates it: the nearest integer, and of
    two nearest integers the even one. *)
Definition py_round (q : Q) : Z :=
  let f := Qfloor q in
  match (q - inject_Z f ?= 1 # 2)%Q with
  | Lt => f
  | Gt => f + 1
  | Eq => if Z.even f then f else f + 1
  end.

(** Conversion of a number to [numpy.uint16] as the C cast of the library
    does it: the fraction is dropped and the integer is reduced modulo
    2^16.  The cast goes through a signed 32-bit integer: a number outside
    its range gives 0. *)
Definition to_uint16 (q : Q) : Z :=
  let z := py_int q in
  if (- 2 ^ 31 <=? z) && (z <? 2 ^ 31) then z mod 65536 else 0.

Definition qz (z : Z) : Q := inject_Z z.
Definition qn (n : nat) : Q := inject_Z (Z.of_nat n).

(** A slice bound [k] on an axis of length [n], as Python normalises it:
    a negative bound counts from the end, and the result is clamped. *)
Definition slice_index (n : nat) (k : Z) : nat :=
  let k' := if k <? 0 then k + Z.of_nat n else k in
  Z.to_nat (Z.min (Z.max k' 0) (Z.of_nat n)).

(** The slice [a:b] of an axis of length [n]: first index and length. *)
Definition slice_range (n : nat) (a b : Z) : nat * nat :=
  let lo := slice_index n a in
  let hi := slice_index n b in
  (lo, (hi - lo)%nat).

(** The slice [a:] and the slice [:b]. *)
Definition slice_from (n : nat) (a : Z) : nat * nat :=
  let lo := slice_index n a in (lo, (n - lo)%nat).
Definition slice_upto (n : nat) (b : Z) : nat * nat :=
  (0%nat, slice_index n b).

End PyNum.
Export PyNum.

(** ** Exceptions and the store monad *)

Inductive exn :=
  TypeError | ZeroDivisionError | ValueError | AttributeError | IndexError.

Inductive result (A : Type) :=
| Ok (a : A)
| Raise (e : exn).
Arguments Ok {A} a.
Arguments Raise {A} e.

(** ** Arrays and images *)

Abbreviation loc := nat (only parsing).
Abbreviation grid := (list (list Z)) (only parsing).

(** A numpy array value: a window of [nrows] x [ncols] cells on the block
    [base], starting at row [row0] and column [col0] of the block. *)
Record ndarray := mkArr {
  base : loc; row0 : nat; nrows : nat; col0 : nat; ncols : nat }.

Record Image := mkImage {
  array : ndarray;
  width : Z;
  height : Z;
  xmin : option Q; ymin : option Q; zmin : option Q;
  xmax : option Q; ymax : option Q; zmax : option Q }.

Record Heap := mkHeap {
  blocks : gmap nat grid;
  images : gmap nat Image }.

(** A computation on the store that returns or raises; the store survives
    an exception, as in Python. *)
Definition M (A : Type) : Type := Heap -> result A * Heap.

Definition ret {A} (a : A) : M A := fun h => (Ok a, h).
Definition raise {A} (e : exn) : M A := fun h => (Raise e, h).
Definition bind {A B} (m : M A) (k : A -> M B) : M B :=
  fun h => match m h with
           | (Ok a, h') => k a h'
           | (Raise e, h') => (Raise e, h')
           end.

Notation "x <- m ;; k" := (bind m (fun x => k))
  (at level 100, m at next level, right associativity).
Notation "m ;;; k" := (bind m (fun _ => k))
  (at level 100, right associativity).

(** Python's [try: m except ZeroDivisionError: k]. *)
Definition try_zde {A} (m : M A) (k : M A) : M A :=
  fun h => match m h with
           | (Raise ZeroDivisionError, h') => k h'
           | r => r
           end.

Definition get_heap : M Heap := fun h => (Ok h, h).

(** Arithmetic on attribute values.  [None] in an arithmetic operation is a
    [TypeError]; division by a zero number is a [ZeroDivisionError]. *)
Definition num (v : option Q) : M Q :=
  match v with Some q => ret q | None => raise TypeError end.

Definition py_sub (a b : option Q) : M Q :=
  x <- num a ;; y <- num b ;; ret (x - y)%Q.

Definition py_div (a b : Q) : M Q :=
  if Qeq_bool b 0 then raise ZeroDivisionError else ret (a / b)%Q.

(** ** The store *)

Definition set_blocks (f : gmap nat grid -> gmap nat grid) (h : Heap) : Heap :=
  mkHeap (f (blocks h)) (images h).
Definition set_images (f : gmap nat Image -> gmap nat Image) (h : Heap) : Heap :=
  mkHeap (blocks h) (f (images h)).

(** A new memory block, at an address not in use. *)
Definition alloc_block (g : grid) : M loc := fun h =>
  let l := fresh (dom (blocks h)) in
  (Ok l, set_blocks (insert l g) h).

(** A new [Image] object. *)
Definition alloc_image (i : Image) : M loc := fun h =>
  let r := fresh (dom (images h)) in
  (Ok r, set_images (insert r i) h).

(** Reading the attributes of the object at [r]; what is not an [Image]
    has none of them. *)
Definition get_image (r : loc) : M Image := fun h =>
  match images h !! r with
  | Some i => (Ok i, h)
  | None => (Raise AttributeError, h)
  end.

(** Attribute assignment on the object at [r]. *)
Definition update_image (r : loc) (f : Image -> Image) : M unit := fun h =>
  match images h !! r with
  | Some i => (Ok tt, set_images (insert r (f i)) h)
  | None => (Raise AttributeError, h)
  end.

Definition with_array (a : ndarray) (i : Image) : Image :=
  mkImage a (width i) (height i)
          (xmin i) (ymin i) (zmin i) (xmax i) (ymax i) (zmax i).
Definition with_shape (hgt wid : Z) (i : Image) : Image :=
  mkImage (array i) wid hgt
          (xmin i) (ymin i) (zmin i) (xmax i) (ymax i) (zmax i).
Definition with_xmin (v : option Q) (i : Image) : Image :=
  mkImage (array i) (width i) (height i)
          v (ymin i) (zmin i) (xmax i) (ymax i) (zmax i).
Definition with_ymin (v : option Q) (i : Image) : Image :=
  mkImage (array i) (width i) (height i)
          (xmin i) v (zmin i) (xmax i) (ymax i) (zmax i).
Definition with_zmin (v : option Q) (i : Image) : Image :=
  mkImage (array i) (width i) (height i)
          (xmin i) (ymin i) v (xmax i) (ymax i) (zmax i).
Definition with_xmax (v : option Q) (i : Image) : Image :=
  mkImage (array i) (width i) (height i)
          (xmin i) (ymin i) (zmin i) v (ymax i) (zmax i).
Definition with_ymax (v : option Q) (i : Image) : Image :=
  mkImage (array i) (width i) (height i)
          (xmin i) (ymin i) (zmin i) (xmax i) v (zmax i).
Definition with_zmax (v : option Q) (i : Image) : Image :=
  mkImage (array i) (width i) (height i)
          (xmin i) (ymin i) (zmin i) (xmax i) (ymax i) v.

(** ** numpy arrays *)

Definition cell {A} (d : A) (g : list (list A)) (r c : nat) : A :=
  nth c (nth r g []) d.

Definition block_of (h : Heap) (l : loc) : grid :=
  default [] (blocks h !! l).

(** The cell [(r, c)] of the array [a]. *)
Definition view_cell (h : Heap) (a : ndarray) (r c : nat) : Z :=
  cell 0 (block_of h (base a)) (row0 a + r) (col0 a + c).

Definition tabulate {A} (n m : nat) (f : nat -> nat -> A) : list (list A) :=
  map (fun r => map (fun c => f r c) (seq 0 m)) (seq 0 n).

(** The contents of the array [a], row by row. *)
Definition contents (h : Heap) (a : ndarray) : grid :=
  tabulate (nrows a) (ncols a) (view_cell h a).

Definition shape (a : ndarray) : nat * nat := (nrows a, ncols a).

(** The array that covers a whole block of the given shape. *)
Definition whole (l : loc) (n m : nat) : ndarray := mkArr l 0 n 0 m.

(** [a[lo:lo+len, :]] and [a[:, lo:lo+len]] as views on the block of [a]. *)
Definition rows_view (a : ndarray) (s : nat * nat) : ndarray :=
  mkArr (base a) (row0 a + fst s) (snd s) (col0 a) (ncols a).
Definition cols_view (a : ndarray) (s : nat * nat) : ndarray :=
  mkArr (base a) (row0 a) (nrows a) (col0 a + fst s) (snd s).

(** [numpy.zeros((n, m), dtype=uint16)]: negative dimensions are an error. *)
Definition np_zeros (n m : Z) : M ndarray :=
  if (n <? 0) || (m <? 0) then raise ValueError
  else l <- alloc_block (replicate (Z.to_nat n) (replicate (Z.to_nat m) 0)) ;;
       ret (whole l (Z.to_nat n) (Z.to_nat m)).

(** A new array holding the given rows. *)
Definition np_array (n m : nat) (g : grid) : M ndarray :=
  l <- alloc_block g ;; ret (whole l n m).

(** The cell [(r, c)] of the block is one of the window [a]. *)
Definition in_window (a : ndarray) (r c : nat) : bool :=
  (row0 a <=? r)%nat && (r <? row0 a + nrows a)%nat &&
  (col0 a <=? c)%nat && (c <? col0 a + ncols a)%nat.

(** The block [g] with [f r c x] written over the old value [x] of each
    cell [(r, c)] of the window [a]. *)
Definition write_window (a : ndarray) (f : nat -> nat -> Z -> Z) (g : grid) : grid :=
  imap (fun r row =>
          imap (fun c x =>
                  if in_window a r c then f (r - row0 a)%nat (c - col0 a)%nat x
                  else x) row) g.

(** [numpy.copyto(dst, src, where=src > dst)] for arrays of one shape; the
    source is read before anything is written. *)
Definition copyto_greater (dst src : ndarray) : M unit := fun h =>
  if decide (shape dst = shape src) then
    let put r c x := let s := view_cell h src r c in if x <? s then s else x in
    (Ok tt, set_blocks (alter (write_window dst put) (base dst)) h)
  else (Raise ValueError, h).

(** ** scipy's zoom *)

(** [scipy.ndimage.interpolation.zoom(input, zoom, output=np.uint16,
    order=0)] is a library routine that is not part of the sources.  Its
    embedding follows the algorithm of the library:
    - along an axis of [n] cells the output has [int(round(n * zoom))]
      cells; a negative length is refused with [ValueError] when the output
      array is allocated;
    - the first and the last cell of the output are aligned with the first
      and the last cell of the input: output index [j] has the input
      coordinate [j * (n - 1) / (out - 1)], the step being 1 when
      [out - 1] is 0;
    - order 0 reads the input cell nearest to the coordinate,
      [floor (x + 1/2)];
    - the value read is converted to the output type by a C cast.
    The library computes the length and the coordinate in doubles; here
    they are exact. *)
Definition zoom_shape (n : nat) (scale : Q) : Z := py_round (qn n * scale).

Definition zoom_length (n : nat) (scale : Q) : nat :=
  Z.to_nat (zoom_shape n scale).

Definition zoom_step (n out : nat) : Q :=
  if Z.of_nat out - 1 =? 0 then 1%Q
  else (inject_Z (Z.of_nat n - 1) / inject_Z (Z.of_nat out - 1))%Q.

Definition zoom_index (n out j : nat) : nat :=
  Z.to_nat (Qfloor (qn j * zoom_step n out + (1 # 2))).

(** The cells of the output of [n'] rows and [m'] columns. *)
Definition zoom_cells (input : list (list Q)) (n m n' m' : nat) : grid :=
  tabulate n' m'
    (fun j i => to_uint16 (cell 0%Q input (zoom_index n n' j) (zoom_index m m' i))).

(** A length of the output is negative. *)
Definition refused (n m : nat) (rs cs : Q) : bool :=
  (zoom_shape n rs <? 0) || (zoom_shape m cs <? 0).

Definition zoom (input : list (list Q)) (n m : nat) (rs cs : Q) : M ndarray :=
  if refused n m rs cs then raise ValueError
  else
    let n' := zoom_length n rs in
    let m' := zoom_length m cs in
    np_array n' m' (zoom_cells input n m n' m').

(** ** The class Image *)

(** [Image(w, h)] *)
Definition Image_init (w h : Z) : M loc :=
  a <- np_zeros h w ;;
  alloc_image (mkImage a w h None None None None None None).

(** The Region objects of the renderer, as far as [from_region] reads
    them: three cell counts and three sequences of coordinates. *)
Record Region := mkRegion {
  ni : nat; nj : nat; nk : nat;
  X : list Q; Y : list Q; Zs : list Q }.

Definition index (l : list Q) (k : nat) : M Q :=
  match l !! k with Some q => ret q | None => raise IndexError end.

(** [Image.from_region(region, mm_per_unit)] *)
Definition from_region (region : Region) (mm_per_unit : Q) : M loc :=
  i <- Image_init (Z.of_nat (ni region)) (Z.of_nat (nj region)) ;;
  x0 <- index (X region) 0 ;;
  update_image i (with_xmin (Some (x0 * mm_per_unit)%Q)) ;;;
  x1 <- index (X region) (ni region) ;;
  update_image i (with_xmax (Some (x1 * mm_per_unit)%Q)) ;;;
  y0 <- index (Y region) 0 ;;
  update_image i (with_ymin (Some (y0 * mm_per_unit)%Q)) ;;;
  y1 <- index (Y region) (nj region) ;;
  update_image i (with_ymax (Some (y1 * mm_per_unit)%Q)) ;;;
  z0 <- index (Zs region) 0 ;;
  update_image i (with_zmin (Some (z0 * mm_per_unit)%Q)) ;;;
  z1 <- index (Zs region) (nk region) ;;
  update_image i (with_zmax (Some (z1 * mm_per_unit)%Q)) ;;;
  ret i.

(** [self.copy()]: a new header on the array of [self]. *)
Definition copy (self : loc) : M loc :=
  me <- get_image self ;;
  i <- Image_init (width me) (height me) ;;
  me <- get_image self ;;
  update_image i (with_array (array me)) ;;;
  me <- get_image self ;; update_image i (with_xmin (xmin me)) ;;;
  me <- get_image self ;; update_image i (with_ymin (ymin me)) ;;;
  me <- get_image self ;; update_image i (with_zmin (zmin me)) ;;;
  me <- get_image self ;; update_image i (with_xmax (xmax me)) ;;;
  me <- get_image self ;; update_image i (with_ymax (ymax me)) ;;;
  me <- get_image self ;; update_image i (with_zmax (zmax me)) ;;;
  ret i.

(** A row pointer: block, row of the block, first column. *)
Definition pointer : Type := loc * nat * nat.

(** The flag [C_CONTIGUOUS] of an array whose block has rows of [bc]
    cells: the rows of the window follow each other in memory. *)
Definition c_contiguous (bc : nat) (a : ndarray) : bool :=
  (nrows a =? 0)%nat || (ncols a =? 0)%nat ||
  (nrows a =? 1)%nat || (ncols a =? bc)%nat.

(** [self.pixels(flip_y)] *)
Definition pixels (self : loc) (flip_y : bool) : M (list pointer) :=
  me <- get_image self ;;
  h <- get_heap ;;
  (if c_contiguous (length (hd [] (block_of h (base (array me))))) (array me)
   then ret tt
   else a <- np_array (nrows (array me)) (ncols (array me))
                      (contents h (array me)) ;;
        update_image self (with_array a)) ;;;
  me <- get_image self ;;
  if height me <? 0 then raise ValueError
  else
    let a := array me in
    let rows := map (fun j => (base a, (row0 a + j)%nat, col0 a))
                    (seq 0 (Z.to_nat (height me))) in
    ret (if flip_y then rows else rev rows).

(** [self.save(filename)], up to the call of the encoder. *)
Definition save (self : loc) : M (list pointer) :=
  me <- get_image self ;;
  num (xmin me) ;;; num (ymin me) ;;; num (zmin me) ;;;
  num (xmax me) ;;; num (ymax me) ;;; num (zmax me) ;;;
  pixels self true.

(** Conversion to [numpy.uint8]. *)
Definition to_uint8 (z : Z) : Z := z mod 256.

(** [self.to_QImage()], up to the call of [QtGui.QImage]: the flat buffer
    [pixels] and the width and height that are passed with it. *)
Definition to_QImage (self : loc) : M (list Z * nat * nat) :=
  me <- get_image self ;;
  h <- get_heap ;;
  let a := array me in
  let scaled :=
    map (map (fun v => to_uint8 (Z.shiftr v 8))) (rev (contents h a)) in
  let rgb := map (map (fun v => [v; v; v; to_uint8 (1 * 255)])) scaled in
  let pixels := concat (concat rgb) in
  ret (pixels, ncols a, nrows a).

(** ** blit_onto *)

Definition Qlt_bool (a b : Q) : bool := negb (Qle_bool b a).

(** Lines 77-81: the scale of the height values. *)
Definition z_scale (source target : loc) : M Q :=
  try_zde
    (s <- get_image source ;; t <- get_image target ;;
     a <- py_sub (zmax s) (zmin t) ;;
     b <- py_sub (zmax t) (zmin t) ;;
     py_div a b)
    (ret 1%Q).

(** One component of [pixel_scale]: [(tn / (tmax - tmin)) / (sn / (smax - smin))]. *)
Definition density_ratio (tn : Z) (tmin tmax : option Q)
                         (sn : Z) (smin smax : option Q) : M Q :=
  dt <- py_sub tmax tmin ;;
  a <- py_div (qz tn) dt ;;
  ds <- py_sub smax smin ;;
  b <- py_div (qz sn) ds ;;
  py_div a b.

(** Lines 83-87. *)
Definition pixel_scale (source target : loc) : M (Q * Q) :=
  s <- get_image source ;; t <- get_image target ;;
  r <- density_ratio (height t) (ymin t) (ymax t) (height s) (ymin s) (ymax s) ;;
  c <- density_ratio (width t) (xmin t) (xmax t) (width s) (xmin s) (xmax s) ;;
  ret (r, c).

(** [source.array[::-1, :] * z_scale]: the rows in reverse order, every
    cell multiplied by the scale.  The product is exact here; the program
    rounds it to a double when the scale is a float. *)
Definition flip_scale (g : grid) (zs : Q) : list (list Q) :=
  map (map (fun v => (qz v * zs)%Q)) (rev g).

(** [source.height, source.width = source.array.shape] *)
Definition refresh (source : loc) : M unit :=
  s <- get_image source ;;
  update_image source
    (with_shape (Z.of_nat (nrows (array s))) (Z.of_nat (ncols (array s)))).

(** Lines 93-98: the array of [source] is replaced by its resampling. *)
Definition resample (source : loc) (zs : Q) (scale : Q * Q) : M unit :=
  s <- get_image source ;;
  h <- get_heap ;;
  let a := array s in
  a' <- zoom (flip_scale (contents h a) zs) (nrows a) (ncols a)
             (fst scale) (snd scale) ;;
  update_image source (with_array a') ;;;
  refresh source.

(** The index of a trim or of the placement: [int(n * (a - b) / (c - d))].
    The quotient is exact here; the program truncates the double that the
    three operations round to, which is the same number when the bounds are
    integers of moderate size and can differ by one otherwise. *)
Definition edge_index (n : Z) (a b c d : option Q) : M Z :=
  x <- py_sub a b ;;
  y <- py_sub c d ;;
  q <- py_div (qz n * x)%Q y ;;
  ret (py_int q).

Definition py_gt (a b : option Q) : M bool :=
  x <- num a ;; y <- num b ;; ret (Qlt_bool y x).

(** Lines 101-105. *)
Definition trim_xmin (source target : loc) : M unit :=
  s <- get_image source ;; t <- get_image target ;;
  g <- py_gt (xmin t) (xmin s) ;;
  if g : bool then
    imin <- edge_index (width s) (xmin t) (xmin s) (xmax s) (xmin s) ;;
    update_image source (with_xmin (xmin t)) ;;;
    s <- get_image source ;;
    let a := array s in
    update_image source (with_array (cols_view a (slice_from (ncols a) imin)))
  else ret tt.

(** Lines 107-111. *)
Definition trim_xmax (source target : loc) : M unit :=
  s <- get_image source ;; t <- get_image target ;;
  g <- py_gt (xmax s) (xmax t) ;;
  if g : bool then
    imax <- edge_index (width s) (xmax t) (xmax s) (xmax s) (xmin s) ;;
    update_image source (with_xmax (xmax t)) ;;;
    s <- get_image source ;;
    let a := array s in
    update_image source (with_array (cols_view a (slice_upto (ncols a) imax)))
  else ret tt.

(** Lines 113-117. *)
Definition trim_ymin (source target : loc) : M unit :=
  s <- get_image source ;; t <- get_image target ;;
  g <- py_gt (ymin t) (ymin s) ;;
  if g : bool then
    jmin <- edge_index (width s) (ymin t) (ymin s) (ymax s) (ymin s) ;;
    update_image source (with_ymin (ymin t)) ;;;
    s <- get_image source ;;
    let a := array s in
    update_image source (with_array (rows_view a (slice_from (nrows a) jmin)))
  else ret tt.

(** Lines 119-123. *)
Definition trim_ymax (source target : loc) : M unit :=
  s <- get_image source ;; t <- get_image target ;;
  g <- py_gt (ymax s) (ymax t) ;;
  if g : bool then
    jmax <- edge_index (width s) (ymax t) (ymax s) (ymax s) (ymin s) ;;
    update_image source (with_ymax (ymax t)) ;;;
    s <- get_image source ;;
    let a := array s in
    update_image source (with_array (rows_view a (slice_upto (nrows a) jmax)))
  else ret tt.

(** Lines 100-126. *)
Definition trim (source target : loc) : M unit :=
  trim_xmin source target ;;;
  trim_xmax source target ;;;
  trim_ymin source target ;;;
  trim_ymax source target ;;;
  refresh source.

(** Lines 128-140: the window of the target that the source goes to, and
    the source array clipped to the shape of that window. *)
Definition place (source target : loc) : M (ndarray * ndarray) :=
  s <- get_image source ;; t <- get_image target ;;
  imin <- edge_index (width t) (xmin s) (xmin t) (xmax t) (xmin t) ;;
  jmin <- edge_index (height t) (ymin s) (ymin t) (ymax t) (ymin t) ;;
  let ta := array t in
  let subtarget :=
    cols_view (rows_view ta (slice_range (nrows ta) jmin (jmin + height s)))
              (slice_range (ncols ta) imin (imin + width s)) in
  (if decide (shape subtarget = shape (array s)) then ret tt
   else
     let a := array s in
     update_image source
       (with_array
          (cols_view (rows_view a (slice_upto (nrows a) (Z.of_nat (nrows subtarget))))
                     (slice_upto (ncols a) (Z.of_nat (ncols subtarget)))))) ;;;
  s <- get_image source ;;
  ret (subtarget, array s).

(** Lines 77-140: everything before the merge.  [None] stands for the early
    [return] of line 89. *)
Definition prepare (source target : loc) : M (option (ndarray * ndarray)) :=
  zs <- z_scale source target ;;
  scale <- pixel_scale source target ;;
  if Qeq_bool (fst scale) 0 || Qeq_bool (snd scale) 0 then ret None
  else
    source <- copy source ;;
    resample source zs scale ;;;
    trim source target ;;;
    p <- place source target ;;
    ret (Some p).

(** [Image.blit_onto(source, target)]; the value is [None] or the target. *)
Definition blit_onto (source target : loc) : M (option loc) :=
  p <- prepare source target ;;
  match p with
  | None => ret None
  | Some (subtarget, a) =>
      copyto_greater subtarget a ;;;
      ret (Some target)
  end.

(** * Properties of stores and of calls *)

(** [stable I m]: running [m] keeps the property [I] of the store, whether
    [m] returns or raises. *)
Definition stable {A} (I : Heap -> Prop) (m : M A) : Prop :=
  forall h, I h -> I (snd (m h)).

(** [keeps h0 h]: every image and every block of [h0] is in [h], unchanged. *)
Definition keeps (h0 h : Heap) : Prop :=
  images h0 ⊆ images h /\ blocks h0 ⊆ blocks h.

(** What [copy] does to the store: one unused block of zeros (the array of
    the fresh [Image], dropped at once) and one new header, equal to the
    header copied. *)
Definition copy_heap (self : Image) (h : Heap) : Heap :=
  mkHeap (<[fresh (dom (blocks h)) :=
              replicate (Z.to_nat (height self))
                        (replicate (Z.to_nat (width self)) 0)]> (blocks h))
         (<[fresh (dom (images h)) := self]> (images h)).

(** [within sub a]: the array [sub] is a window of the array [a], on the
    same block. *)
Definition within (sub a : ndarray) : Prop :=
  base sub = base a /\
  (row0 a <= row0 sub)%nat /\ (row0 sub + nrows sub <= row0 a + nrows a)%nat /\
  (col0 a <= col0 sub)%nat /\ (col0 sub + ncols sub <= col0 a + ncols a)%nat.

(** The array [a] lies inside its block. *)
Definition fits (h : Heap) (a : ndarray) : bool :=
  match blocks h !! base a with
  | Some g =>
      (row0 a + nrows a <=? length g)%nat &&
      forallb (fun row => (col0 a + ncols a <=? length row)%nat) g
  | None => false
  end.

(** The source as the caller holds it is the same after the call: its
    header, and the contents of its grid. *)
Definition source_unchanged (s t : loc) (h : Heap) : Prop :=
  let h' := snd (blit_onto s t h) in
  images h' !! s = images h !! s /\
  forall S, images h !! s = Some S -> contents h' (array S) = contents h (array S).

(** [height] and [width] are the row and column counts of the array. *)
Definition shape_ok (i : Image) : Prop :=
  height i = Z.of_nat (nrows (array i)) /\
  width i = Z.of_nat (ncols (array i)).

Definition tile_ok (h : Heap) (r : loc) : Prop :=
  exists i, images h !! r = Some i /\ shape_ok i.

(** The calls of the public interface. *)
Inductive call :=
| CallInit (w hg : Z)
| CallFromRegion (region : Region) (mm_per_unit : Q)
| CallCopy (self : loc)
| CallPixels (self : loc) (flip_y : bool)
| CallSave (self : loc)
| CallBlit (source target : loc).

(** Running a call; the value is the tile that the call creates, if any. *)
Definition run (c : call) : M (option loc) :=
  match c with
  | CallInit w hg => r <- Image_init w hg ;; ret (Some r)
  | CallFromRegion region u => r <- from_region region u ;; ret (Some r)
  | CallCopy self => r <- copy self ;; ret (Some r)
  | CallPixels self flip_y => pixels self flip_y ;;; ret None
  | CallSave self => save self ;;; ret None
  | CallBlit source target => blit_onto source target ;;; ret None
  end.

(** After its first statement [from_region] only sets bounds. *)
Definition set_bounds (region : Region) (u : Q) (i : loc) : M loc :=
  x0 <- index (X region) 0 ;;
  update_image i (with_xmin (Some (x0 * u)%Q)) ;;;
  x1 <- index (X region) (ni region) ;;
  update_image i (with_xmax (Some (x1 * u)%Q)) ;;;
  y0 <- index (Y region) 0 ;;
  update_image i (with_ymin (Some (y0 * u)%Q)) ;;;
  y1 <- index (Y region) (nj region) ;;
  update_image i (with_ymax (Some (y1 * u)%Q)) ;;;
  z0 <- index (Zs region) 0 ;;
  update_image i (with_zmin (Some (z0 * u)%Q)) ;;;
  z1 <- index (Zs region) (nk region) ;;
  update_image i (with_zmax (Some (z1 * u)%Q)) ;;;
  ret i.

(** The working copy [c] has its array on the block [l], and the blocks
    of the store are [B]. *)
Definition on_block (c l : loc) (B : gmap nat (list (list Z))) (h : Heap) : Prop :=
  blocks h = B /\ exists S, images h !! c = Some S /\ base (array S) = l.

(** The image [c] has an array with the property [P]. *)
Definition array_has (c : loc) (P : ndarray -> Prop) (h : Heap) : Prop :=
  exists S, images h !! c = Some S /\ P (array S).

(** Every cell of a block is in the range of [numpy.uint16]. *)
Definition uint16_grid (g : list (list Z)) : Prop :=
  forall r c, 0 <= cell 0 g r c < 65536.

(** The six bounds of an image, in the order xmin, ymin, zmin, xmax, ymax,
    zmax. *)
Definition bounds (i : Image) : list (option Q) :=
  [xmin i; ymin i; zmin i; xmax i; ymax i; zmax i].


(** * Scenarios *)

Module Scenario.

(** A tile of [n] rows and [m] columns on the whole of block [l]. *)
Definition tile (l : loc) (n m : nat) (x0 x1 y0 y1 z0 z1 : Q) : Image :=
  mkImage (whole l n m) (Z.of_nat m) (Z.of_nat n)
          (Some x0) (Some y0) (Some z0) (Some x1) (Some y1) (Some z1).

(** A store with a target (object 0, block 0) and a source (object 1,
    block 1). *)
Definition two_tiles (tg : grid) (ti : Image) (sg : grid) (si : Image) : Heap :=
  mkHeap (<[0%nat := tg]> (<[1%nat := sg]> ∅))
         (<[0%nat := ti]> (<[1%nat := si]> ∅)).

Definition target : loc := 0%nat.
Definition source : loc := 1%nat.

(** The scenario of the specification: a 4x4 target of zeros on
    x:[0,4], y:[0,4], z:[0,10] and a 2x2 source of 1000 on x:[1,3],
    y:[1,3], z:[5,15]. *)
Definition centre : Heap :=
  two_tiles (replicate 4 (replicate 4 0)) (tile 0 4 4 0 4 0 4 0 10)
            (replicate 2 (replicate 2 1000)) (tile 1 2 2 1 3 1 3 5 15).

(** The same source before a target without rows: the row density ratio
    [(0 / 4) / (2 / 2)] is zero. *)
Definition no_rows : Heap :=
  two_tiles [] (tile 0 0 4 0 4 0 4 0 10)
            (replicate 2 (replicate 2 1000)) (tile 1 2 2 1 3 1 3 5 15).

(** A source of 2 rows and 4 columns of 7 on x:[0,4], y:[0,2] and a target
    of 1 row and 4 columns of zeros on x:[0,4], y:[1,2].  Both have one
    pixel per unit; the target covers the upper half of the source. *)
Definition upper_half : Heap :=
  two_tiles [replicate 4 0] (tile 0 1 4 0 4 1 2 0 10)
            (replicate 2 (replicate 4 7)) (tile 1 2 4 0 4 0 2 0 10).

(** A source of 1 row and 8 columns of 7 on x:[0,8], y:[0,1] and a target
    of 1 row and 2 columns of zeros on x:[4,6], y:[0,1].  Both have one
    pixel per unit; the target covers columns 4 and 5 of the source. *)
Definition middle_columns : Heap :=
  two_tiles [replicate 2 0] (tile 0 1 2 4 6 0 1 0 10)
            [replicate 8 7] (tile 1 1 8 0 8 0 1 0 10).

(** One tile of 2 rows and 1 column, [5] above [0], on x:[0,1], y:[0,2],
    z:[0,10]. *)
Definition mirror : Heap :=
  mkHeap (<[0%nat := [[5]; [0]]]> ∅)
         (<[0%nat := tile 0 2 1 0 1 0 2 0 10]> ∅).

(** The scenario of the specification with a flat target, z:[3,3]. *)
Definition flat_target : Heap :=
  two_tiles (replicate 4 (replicate 4 0)) (tile 0 4 4 0 4 0 4 3 3)
            (replicate 2 (replicate 2 1000)) (tile 1 2 2 1 3 1 3 5 15).

(** One tile whose array is the window of rows 0-1 and columns 1-2 of a
    block of 2 rows and 4 columns. *)
Definition window_tile : Heap :=
  mkHeap (<[0%nat := [[256; 512; 768; 1024]; [1280; 1536; 1792; 65535]]]> ∅)
         (<[0%nat := mkImage (mkArr 0 0 2 1 2) 2 2
                             (Some 0%Q) (Some 0%Q) (Some 0%Q)
                             (Some 2%Q) (Some 2%Q) (Some 10%Q)]> ∅).


(** A source of 1 row and 2 columns on x:[0,2], y:[0,1] and a target of 1
    row and 3 columns of zeros on the same rectangle: the column density
    ratio is [(3 / 2) / (2 / 2)]. *)
Definition stretch : Heap :=
  two_tiles [replicate 3 0] (tile 0 1 3 0 2 0 1 0 10)
            [[10; 20]] (tile 1 1 2 0 2 0 1 0 10).

(** A region of 3 by 2 by 1 cells. *)
Definition region : Region :=
  mkRegion 3 2 1 [0%Q; 1%Q; 2%Q; 3%Q] [10%Q; 11%Q; 12%Q] [5%Q; 7%Q].

(** Lines 77-98 of [blit_onto] on [source] and [target]: the copy, resampled. *)
Definition resampled : M loc :=
  zs <- z_scale source target ;;
  scale <- pixel_scale source target ;;
  c <- copy source ;;
  resample c zs scale ;;;
  ret c.

(** The shape of the array of the image [r]. *)
Definition shape_of (h : Heap) (r : loc) : option (nat * nat) :=
  (fun i => shape (array i)) <$> images h !! r.

End Scenario.

(** ** The trims as the specification words them *)

Module AsSpecified.



(** The row trims with the index taken from the row count. *)
Definition trim_ymin_rows (source target : loc) : M unit :=
  s <- get_image source ;; t <- get_image target ;;
  g <- py_gt (ymin t) (ymin s) ;;
  if g : bool then
    jmin <- edge_index (height s) (ymin t) (ymin s) (ymax s) (ymin s) ;;
    update_image source (with_ymin (ymin t)) ;;;
    s <- get_image source ;;
    let a := array s in
    update_image source (with_array (rows_view a (slice_from (nrows a) jmin)))
  else ret tt.

Definition trim_ymax_rows (source target : loc) : M unit :=
  s <- get_image source ;; t <- get_image target ;;
  g <- py_gt (ymax s) (ymax t) ;;
  if g : bool then
    jmax <- edge_index (height s) (ymax t) (ymax s) (ymax s) (ymin s) ;;
    update_image source (with_ymax (ymax t)) ;;;
    s <- get_image source ;;
    let a := array s in
    update_image source (with_array (rows_view a (slice_upto (nrows a) jmax)))
  else ret tt.

(** The trim phase with the row indices taken from the row count. *)
Definition trim_by_rows (source target : loc) : M unit :=
  trim_xmin source target ;;;
  trim_xmax source target ;;;
  trim_ymin_rows source target ;;;
  trim_ymax_rows source target ;;;
  refresh source.

(** The trim phase with width and height refreshed after each trim. *)
Definition trim_refreshed (source target : loc) : M unit :=
  trim_xmin source target ;;; refresh source ;;;
  trim_xmax source target ;;; refresh source ;;;
  trim_ymin source target ;;; refresh source ;;;
  trim_ymax source target ;;; refresh source.

End AsSpecified.

(** * Reasoning about store computations *)

Section Monad.
Context {A B : Type}.

Lemma bind_ok (m : M A) (k : A -> M B) h b h' :
  bind m k h = (Ok b, h') ->
  exists a h1, m h = (Ok a, h1) /\ k a h1 = (Ok b, h').
Proof.
  unfold bind. destruct (m h) as [[a|e] h1]; intros E.
  - exists a, h1. auto.
  - discriminate.
Qed.

Lemma bind_run (m : M A) (k : A -> M B) h a h1 :
  m h = (Ok a, h1) -> bind m k h = k a h1.
Proof. unfold bind. intros ->. reflexivity. Qed.

Lemma bind_raise (m : M A) (k : A -> M B) h e h1 :
  m h = (Raise e, h1) -> bind m k h = (Raise e, h1).
Proof. unfold bind. intros ->. reflexivity. Qed.
End Monad.

Section Stable.
Context {A B : Type} (I : Heap -> Prop).

Lemma stable_ret (a : A) : stable I (ret a).
Proof. intros h H. exact H. Qed.

Lemma stable_raise e : stable I (@raise A e).
Proof. intros h H. exact H. Qed.

Lemma stable_bind_ok (m : M A) (k : A -> M B) :
  stable I m ->
  (forall h a h', I h -> I h' -> m h = (Ok a, h') -> I (snd (k a h'))) ->
  stable I (bind m k).
Proof.
  intros Hm Hk h H. unfold bind. specialize (Hm h H).
  destruct (m h) as [[a|e] h1] eqn:E.
  - eapply Hk; eauto.
  - exact Hm.
Qed.

Lemma stable_bind (m : M A) (k : A -> M B) :
  stable I m -> (forall a, stable I (k a)) -> stable I (bind m k).
Proof.
  intros Hm Hk. apply stable_bind_ok; [exact Hm|].
  intros h a h' H H' E. apply Hk. exact H'.
Qed.

Lemma stable_try (m k : M A) :
  stable I m -> stable I k -> stable I (try_zde m k).
Proof.
  intros Hm Hk h H. unfold try_zde. specialize (Hm h H).
  destruct (m h) as [[a|[]] h1]; simpl in *; auto.
Qed.

Lemma stable_get_image r : stable I (get_image r).
Proof. intros h H. unfold get_image. destruct (images h !! r); exact H. Qed.

Lemma stable_get_heap : stable I get_heap.
Proof. intros h H. exact H. Qed.

Lemma stable_num v : stable I (num v).
Proof. intros h H. destruct v; exact H. Qed.

Lemma stable_py_div a b : stable I (py_div a b).
Proof. intros h H. unfold py_div. destruct (Qeq_bool b 0); exact H. Qed.

Lemma stable_index l k : stable I (index l k).
Proof. intros h H. unfold index. destruct (l !! k); exact H. Qed.
End Stable.

Lemma stable_py_sub I a b : stable I (py_sub a b).
Proof.
  unfold py_sub. apply stable_bind; [apply stable_num|]. intros x.
  apply stable_bind; [apply stable_num|]. intros y. apply stable_ret.
Qed.

Lemma stable_py_gt I a b : stable I (py_gt a b).
Proof.
  unfold py_gt. apply stable_bind; [apply stable_num|]. intros x.
  apply stable_bind; [apply stable_num|]. intros y. apply stable_ret.
Qed.

Lemma stable_edge_index I n a b c d : stable I (edge_index n a b c d).
Proof.
  unfold edge_index. apply stable_bind; [apply stable_py_sub|]. intros x.
  apply stable_bind; [apply stable_py_sub|]. intros y.
  apply stable_bind; [apply stable_py_div|]. intros q. apply stable_ret.
Qed.

Lemma stable_density_ratio I tn t0 t1 sn s0 s1 :
  stable I (density_ratio tn t0 t1 sn s0 s1).
Proof.
  unfold density_ratio.
  apply stable_bind; [apply stable_py_sub|]. intros dt.
  apply stable_bind; [apply stable_py_div|]. intros a.
  apply stable_bind; [apply stable_py_sub|]. intros ds.
  apply stable_bind; [apply stable_py_div|]. intros b.
  apply stable_py_div.
Qed.

Lemma stable_z_scale I s t : stable I (z_scale s t).
Proof.
  unfold z_scale. apply stable_try; [|apply stable_ret].
  apply stable_bind; [apply stable_get_image|]. intros si.
  apply stable_bind; [apply stable_get_image|]. intros ti.
  apply stable_bind; [apply stable_py_sub|]. intros a.
  apply stable_bind; [apply stable_py_sub|]. intros b.
  apply stable_py_div.
Qed.

Lemma stable_pixel_scale I s t : stable I (pixel_scale s t).
Proof.
  unfold pixel_scale.
  apply stable_bind; [apply stable_get_image|]. intros si.
  apply stable_bind; [apply stable_get_image|]. intros ti.
  apply stable_bind; [apply stable_density_ratio|]. intros r.
  apply stable_bind; [apply stable_density_ratio|]. intros c.
  apply stable_ret.
Qed.

(** The computations that only read leave the store as it is. *)
Lemma z_scale_heap s t h : snd (z_scale s t h) = h.
Proof. apply (stable_z_scale (fun h' => h' = h)). reflexivity. Qed.

Lemma pixel_scale_heap s t h : snd (pixel_scale s t h) = h.
Proof. apply (stable_pixel_scale (fun h' => h' = h)). reflexivity. Qed.

(** ** What a call leaves alone *)

Lemma keeps_refl h : keeps h h.
Proof. split; reflexivity. Qed.

Lemma keeps_image h0 h r i :
  keeps h0 h -> images h0 !! r = Some i -> images h !! r = Some i.
Proof. intros [Hi _] E. eapply lookup_weaken; eauto. Qed.

Lemma keeps_block h0 h l g :
  keeps h0 h -> blocks h0 !! l = Some g -> blocks h !! l = Some g.
Proof. intros [_ Hb] E. eapply lookup_weaken; eauto. Qed.

Lemma keeps_fresh_image h0 h r :
  keeps h0 h -> images h !! r = None -> images h0 !! r = None.
Proof.
  intros K E. destruct (images h0 !! r) as [i|] eqn:E0; [|reflexivity].
  rewrite (keeps_image _ _ _ _ K E0) in E. discriminate.
Qed.

Lemma fresh_lookup {V} (m : gmap nat V) : m !! fresh (dom m) = None.
Proof. apply not_elem_of_dom. apply is_fresh. Qed.

Lemma stable_alloc_block h0 g : stable (keeps h0) (alloc_block g).
Proof.
  intros h [Hi Hb]. split; simpl; [exact Hi|].
  apply insert_subseteq_r; [|exact Hb].
  eapply lookup_weaken_None; [apply fresh_lookup|exact Hb].
Qed.

Lemma stable_alloc_image h0 i : stable (keeps h0) (alloc_image i).
Proof.
  intros h [Hi Hb]. split; simpl; [|exact Hb].
  apply insert_subseteq_r; [|exact Hi].
  eapply lookup_weaken_None; [apply fresh_lookup|exact Hi].
Qed.

Lemma stable_update_image h0 c f :
  images h0 !! c = None -> stable (keeps h0) (update_image c f).
Proof.
  intros F h [Hi Hb]. unfold update_image.
  destruct (images h !! c); [|split; assumption].
  split; simpl; [|exact Hb]. apply insert_subseteq_r; assumption.
Qed.

Lemma stable_np_zeros h0 n m : stable (keeps h0) (np_zeros n m).
Proof.
  unfold np_zeros. destruct (_ || _); [apply stable_raise|].
  apply stable_bind; [apply stable_alloc_block|]. intros l. apply stable_ret.
Qed.

Lemma stable_np_array h0 n m g : stable (keeps h0) (np_array n m g).
Proof.
  unfold np_array.
  apply stable_bind; [apply stable_alloc_block|]. intros l. apply stable_ret.
Qed.

Lemma stable_Image_init h0 w hg : stable (keeps h0) (Image_init w hg).
Proof.
  unfold Image_init.
  apply stable_bind; [apply stable_np_zeros|]. intros a. apply stable_alloc_image.
Qed.

(** The object that [Image(w, h)] returns is new, and so are the blocks
    that an allocation returns. *)
Lemma np_zeros_ok n m h a h' :
  np_zeros n m h = (Ok a, h') ->
  0 <= n /\ 0 <= m /\
  a = whole (fresh (dom (blocks h))) (Z.to_nat n) (Z.to_nat m) /\
  h' = set_blocks (insert (fresh (dom (blocks h)))
                          (replicate (Z.to_nat n) (replicate (Z.to_nat m) 0))) h.
Proof.
  unfold np_zeros. destruct (_ || _) eqn:G; [discriminate|].
  apply orb_false_iff in G as [G1 G2].
  apply Z.ltb_ge in G1. apply Z.ltb_ge in G2.
  cbv [bind alloc_block ret]. intros [= <- <-]. auto.
Qed.

Lemma Image_init_ok w hg h r h' :
  Image_init w hg h = (Ok r, h') ->
  exists a h1, np_zeros hg w h = (Ok a, h1) /\
    r = fresh (dom (images h)) /\
    images h !! r = None /\
    h' = set_images (insert r (mkImage a w hg None None None None None None)) h1.
Proof.
  unfold Image_init. intros E. apply bind_ok in E as (a & h1 & E1 & E2).
  exists a, h1. split; [exact E1|].
  apply np_zeros_ok in E1 as (_ & _ & _ & ->).
  cbv [alloc_image] in E2. simpl in E2. injection E2 as <- <-.
  split; [reflexivity|]. split; [apply fresh_lookup|reflexivity].
Qed.

Lemma get_image_run r i h :
  images h !! r = Some i -> get_image r h = (Ok i, h).
Proof. unfold get_image. intros ->. reflexivity. Qed.

Lemma get_image_ok r i h h' :
  get_image r h = (Ok i, h') -> images h !! r = Some i /\ h' = h.
Proof.
  unfold get_image. destruct (images h !! r); [|discriminate].
  intros [= <- <-]. auto.
Qed.

Lemma update_image_run r f i h :
  images h !! r = Some i ->
  update_image r f h = (Ok tt, set_images (insert r (f i)) h).
Proof. unfold update_image. intros ->. reflexivity. Qed.

Lemma update_image_ok r f u h h' :
  update_image r f h = (Ok u, h') ->
  exists i, images h !! r = Some i /\ h' = set_images (insert r (f i)) h.
Proof.
  unfold update_image. destruct (images h !! r) as [i|]; [|discriminate].
  intros [= <-]. eauto.
Qed.

(** ** copy *)

Lemma copy_step {A} s c S (f : Image -> Image -> Image) (k : M A) bl im J :
  c <> s -> im !! s = Some S ->
  (me <- get_image s ;; update_image c (f me) ;;; k) (mkHeap bl (<[c:=J]> im))
  = k (mkHeap bl (<[c:=f S J]> im)).
Proof.
  intros N E. unfold bind, get_image, update_image. simpl.
  rewrite lookup_insert_ne by exact N. rewrite E. simpl.
  rewrite lookup_insert_eq. unfold set_images. simpl.
  rewrite insert_insert_eq. reflexivity.
Qed.

Lemma copy_run s S h :
  images h !! s = Some S -> 0 <= width S -> 0 <= height S ->
  copy s h = (Ok (fresh (dom (images h))), copy_heap S h).
Proof.
  intros E Hw Hh. unfold copy.
  rewrite (bind_run _ _ _ _ _ (get_image_run _ _ _ E)).
  set (c := fresh (dom (images h))).
  assert (Fc : images h !! c = None) by apply fresh_lookup.
  assert (Ncs : c <> s) by (intros ->; rewrite E in Fc; discriminate).
  assert (Ei : Image_init (width S) (height S) h =
    (Ok c, mkHeap (<[fresh (dom (blocks h)) :=
                      replicate (Z.to_nat (height S))
                                (replicate (Z.to_nat (width S)) 0)]> (blocks h))
                  (<[c := mkImage (whole (fresh (dom (blocks h)))
                                         (Z.to_nat (height S)) (Z.to_nat (width S)))
                                  (width S) (height S)
                                  None None None None None None]> (images h)))).
  { unfold Image_init, np_zeros.
    replace (height S <? 0) with false by (symmetry; apply Z.ltb_ge; exact Hh).
    replace (width S <? 0) with false by (symmetry; apply Z.ltb_ge; exact Hw).
    reflexivity. }
  rewrite (bind_run _ _ _ _ _ Ei).
  rewrite (copy_step s c S (fun me => with_array (array me))) by assumption.
  rewrite (copy_step s c S (fun me => with_xmin (xmin me))) by assumption.
  rewrite (copy_step s c S (fun me => with_ymin (ymin me))) by assumption.
  rewrite (copy_step s c S (fun me => with_zmin (zmin me))) by assumption.
  rewrite (copy_step s c S (fun me => with_xmax (xmax me))) by assumption.
  rewrite (copy_step s c S (fun me => with_ymax (ymax me))) by assumption.
  rewrite (copy_step s c S (fun me => with_zmax (zmax me))) by assumption.
  unfold copy_heap, ret. fold c. destruct S; reflexivity.
Qed.

Lemma copy_ok s c h h' :
  copy s h = (Ok c, h') ->
  exists S, images h !! s = Some S /\ c = fresh (dom (images h)) /\
            h' = copy_heap S h.
Proof.
  intros E. pose proof E as E0. unfold copy in E.
  apply bind_ok in E as (S & h1 & E1 & E2).
  apply get_image_ok in E1 as [ES ->].
  apply bind_ok in E2 as (i & h2 & E2 & _).
  apply Image_init_ok in E2 as (a & h3 & E3 & _).
  apply np_zeros_ok in E3 as (Hh & Hw & _).
  rewrite (copy_run s S h ES Hw Hh) in E0. injection E0 as <- <-.
  exists S. auto.
Qed.

Lemma stable_copy h0 s : stable (keeps h0) (copy s).
Proof.
  unfold copy. apply stable_bind; [apply stable_get_image|]. intros me.
  apply stable_bind_ok; [apply stable_Image_init|].
  intros h1 i h2 K1 K2 Ei.
  assert (F : images h0 !! i = None).
  { apply Image_init_ok in Ei as (a & h3 & _ & _ & Fi & _).
    exact (keeps_fresh_image _ _ _ K1 Fi). }
  revert h2 K2 Ei. intros h2 K2 _. revert h2 K2.
  change (stable (keeps h0)
    (me <- get_image s ;; update_image i (with_array (array me)) ;;;
     me <- get_image s ;; update_image i (with_xmin (xmin me)) ;;;
     me <- get_image s ;; update_image i (with_ymin (ymin me)) ;;;
     me <- get_image s ;; update_image i (with_zmin (zmin me)) ;;;
     me <- get_image s ;; update_image i (with_xmax (xmax me)) ;;;
     me <- get_image s ;; update_image i (with_ymax (ymax me)) ;;;
     me <- get_image s ;; update_image i (with_zmax (zmax me)) ;;;
     ret i)).
  repeat (apply stable_bind;
          [first [apply stable_get_image | apply stable_update_image; exact F]
          |intros ?]).
  apply stable_ret.
Qed.

(** ** The working copy of blit_onto *)

(** Every statement after [source = source.copy()] assigns to attributes of
    the copy only, and allocates. *)
Ltac stable_steps F :=
  cbv zeta;
  repeat first
    [ apply stable_ret | apply stable_raise
    | apply stable_get_image | apply stable_get_heap
    | apply stable_py_sub | apply stable_py_gt | apply stable_edge_index
    | apply stable_np_array
    | apply stable_update_image; exact F
    | apply stable_bind; [|intros ?]
    | match goal with
      | |- stable _ (if ?b then _ else _) => destruct b
      end ].

Section WorkingCopy.
Variables (h0 : Heap) (c t : loc).
Hypothesis F : images h0 !! c = None.

Lemma stable_refresh : stable (keeps h0) (refresh c).
Proof. unfold refresh. stable_steps F. Qed.

Lemma stable_resample zs scale : stable (keeps h0) (resample c zs scale).
Proof.
  unfold resample, zoom. stable_steps F.
Qed.

Lemma stable_trim_xmin : stable (keeps h0) (trim_xmin c t).
Proof. unfold trim_xmin. stable_steps F. Qed.

Lemma stable_trim_xmax : stable (keeps h0) (trim_xmax c t).
Proof. unfold trim_xmax. stable_steps F. Qed.

Lemma stable_trim_ymin : stable (keeps h0) (trim_ymin c t).
Proof. unfold trim_ymin. stable_steps F. Qed.

Lemma stable_trim_ymax : stable (keeps h0) (trim_ymax c t).
Proof. unfold trim_ymax. stable_steps F. Qed.

Lemma stable_trim : stable (keeps h0) (trim c t).
Proof.
  unfold trim.
  apply stable_bind; [apply stable_trim_xmin|intros _].
  apply stable_bind; [apply stable_trim_xmax|intros _].
  apply stable_bind; [apply stable_trim_ymin|intros _].
  apply stable_bind; [apply stable_trim_ymax|intros _].
  apply stable_refresh.
Qed.

Lemma stable_place : stable (keeps h0) (place c t).
Proof. unfold place. stable_steps F. Qed.
End WorkingCopy.

Lemma stable_prepare h0 s t : stable (keeps h0) (prepare s t).
Proof.
  unfold prepare.
  apply stable_bind; [apply stable_z_scale|intros zs].
  apply stable_bind; [apply stable_pixel_scale|intros scale].
  destruct (_ || _); [apply stable_ret|].
  apply stable_bind_ok; [apply stable_copy|].
  intros h c h' K K' E.
  assert (F : images h0 !! c = None).
  { apply copy_ok in E as (S & _ & -> & _).
    exact (keeps_fresh_image _ _ _ K (fresh_lookup _)). }
  revert h' K' E. intros h' K' _. revert h' K'.
  change (stable (keeps h0)
            (resample c zs scale ;;; trim c t ;;;
             p <- place c t ;; ret (Some p))).
  apply stable_bind; [apply stable_resample; exact F|intros _].
  apply stable_bind; [apply stable_trim; exact F|intros _].
  apply stable_bind; [apply stable_place; exact F|intros p].
  apply stable_ret.
Qed.

(** Nothing that existed before the merge is touched by what precedes it. *)
Lemma prepare_keeps s t h : keeps h (snd (prepare s t h)).
Proof. apply stable_prepare. apply keeps_refl. Qed.

(** ** Slices *)

Lemma slice_index_le n k : (slice_index n k <= n)%nat.
Proof. unfold slice_index. destruct (k <? 0) eqn:E; lia. Qed.

Lemma slice_index_of_nat n k : (k <= n)%nat -> slice_index n (Z.of_nat k) = k.
Proof.
  intros H. unfold slice_index.
  destruct (Z.of_nat k <? 0) eqn:E; [apply Z.ltb_lt in E|]; lia.
Qed.

Lemma slice_range_fits n a b :
  (fst (slice_range n a b) + snd (slice_range n a b) <= n)%nat.
Proof.
  pose proof (slice_index_le n a). pose proof (slice_index_le n b).
  unfold slice_range. cbn [fst snd]. lia.
Qed.

(** A slice [a : a + k] never has more than [k] elements. *)
Lemma slice_range_length n a k :
  0 <= k -> (snd (slice_range n a (a + k)) <= Z.to_nat k)%nat.
Proof.
  intros Hk. unfold slice_range, slice_index. simpl.
  destruct (a <? 0) eqn:Ea; destruct (a + k <? 0) eqn:Eb;
    try apply Z.ltb_lt in Ea; try apply Z.ltb_lt in Eb;
    try apply Z.ltb_ge in Ea; try apply Z.ltb_ge in Eb; lia.
Qed.

Lemma within_subtarget a j1 j2 i1 i2 :
  within (cols_view (rows_view a (slice_range (nrows a) j1 j2))
                    (slice_range (ncols a) i1 i2)) a.
Proof.
  pose proof (slice_range_fits (nrows a) j1 j2).
  pose proof (slice_range_fits (ncols a) i1 i2).
  unfold within, cols_view, rows_view.
  cbn [base row0 nrows col0 ncols]. lia.
Qed.

(** ** Stepping through blit_onto *)

Lemma refresh_ok c h h' u :
  refresh c h = (Ok u, h') ->
  exists S, images h !! c = Some S /\
    h' = set_images
           (insert c (with_shape (Z.of_nat (nrows (array S)))
                                 (Z.of_nat (ncols (array S))) S)) h.
Proof.
  unfold refresh. intros E. apply bind_ok in E as (S & h1 & E1 & E2).
  apply get_image_ok in E1 as [ES ->].
  apply update_image_ok in E2 as (S' & ES' & ->).
  rewrite ES in ES'. injection ES' as <-. eauto.
Qed.

(** After the trims the height and width of the copy are those of its
    array (line 126). *)
Lemma trim_ok c t h h' u :
  trim c t h = (Ok u, h') ->
  exists S, images h' !! c = Some S /\
            height S = Z.of_nat (nrows (array S)) /\
            width S = Z.of_nat (ncols (array S)).
Proof.
  unfold trim. intros E.
  apply bind_ok in E as (? & h1 & _ & E).
  apply bind_ok in E as (? & h2 & _ & E).
  apply bind_ok in E as (? & h3 & _ & E).
  apply bind_ok in E as (? & h4 & _ & E).
  apply refresh_ok in E as (S & ES & ->). simpl.
  rewrite lookup_insert_eq. eexists. split; [reflexivity|]. auto.
Qed.

Lemma edge_index_ok n a b x y k h h' :
  edge_index n a b x y h = (Ok k, h') -> h' = h.
Proof.
  intros E. pose proof (stable_edge_index (fun h' => h' = h) n a b x y h eq_refl) as X.
  rewrite E in X. exact X.
Qed.

(** The window of the target and the array merged into it have one shape,
    and the window lies in the target's array. *)
Lemma place_ok c t S T h sub a h' :
  c <> t ->
  images h !! c = Some S -> images h !! t = Some T ->
  height S = Z.of_nat (nrows (array S)) ->
  width S = Z.of_nat (ncols (array S)) ->
  place c t h = (Ok (sub, a), h') ->
  within sub (array T) /\ shape sub = shape a /\
  images h' !! t = Some T /\ blocks h' = blocks h /\
  (base a = base (array S)).
Proof.
  intros N ES ET Hh Hw E. unfold place in E.
  rewrite (bind_run _ _ _ _ _ (get_image_run _ _ _ ES)) in E.
  rewrite (bind_run _ _ _ _ _ (get_image_run _ _ _ ET)) in E.
  apply bind_ok in E as (imin & h1 & E1 & E). apply edge_index_ok in E1 as ->.
  apply bind_ok in E as (jmin & h1 & E1 & E). apply edge_index_ok in E1 as ->.
  cbv zeta in E.
  set (sub' := cols_view _ _) in E.
  assert (W : within sub' (array T)) by apply within_subtarget.
  assert (Ln : (nrows sub' <= nrows (array S))%nat).
  { subst sub'. simpl. rewrite Hh.
    etransitivity; [apply slice_range_length; lia|]. lia. }
  assert (Lm : (ncols sub' <= ncols (array S))%nat).
  { subst sub'. simpl. rewrite Hw.
    etransitivity; [apply slice_range_length; lia|]. lia. }
  destruct (decide (shape sub' = shape (array S))) as [Es|Es].
  - cbv [bind ret] in E. rewrite (get_image_run _ _ _ ES) in E.
    injection E as <- <- <-. auto.
  - apply bind_ok in E as (? & h1 & E1 & E).
    rewrite (update_image_run _ _ _ _ ES) in E1. injection E1 as _ <-.
    cbv [bind ret get_image set_images images] in E.
    rewrite lookup_insert_eq in E. injection E as <- <- <-.
    split; [exact W|]. split.
    + unfold shape, slice_upto. simpl.
      rewrite !slice_index_of_nat by assumption. reflexivity.
    + simpl. rewrite lookup_insert_ne by exact N. auto.
Qed.

Lemma stable_run {A} (I : Heap -> Prop) (m : M A) h r h' :
  stable I m -> I h -> m h = (r, h') -> I h'.
Proof. intros St H E. specialize (St h H). rewrite E in St. exact St. Qed.

(** A call that gets past the guard of line 89: the stages it went through. *)
Lemma prepare_ok s t h p h1 :
  prepare s t h = (Ok (Some p), h1) ->
  exists zs scale c h2 h3 h4,
    z_scale s t h = (Ok zs, h) /\
    pixel_scale s t h = (Ok scale, h) /\
    Qeq_bool (fst scale) 0 || Qeq_bool (snd scale) 0 = false /\
    copy s h = (Ok c, h2) /\
    resample c zs scale h2 = (Ok tt, h3) /\
    trim c t h3 = (Ok tt, h4) /\
    place c t h4 = (Ok p, h1).
Proof.
  unfold prepare. intros E.
  apply bind_ok in E as (zs & h' & Ez & E).
  pose proof (z_scale_heap s t h) as X. rewrite Ez in X. simpl in X. subst h'.
  apply bind_ok in E as (scale & h' & Ep & E).
  pose proof (pixel_scale_heap s t h) as X. rewrite Ep in X. simpl in X. subst h'.
  destruct (_ || _) eqn:G; [discriminate|].
  apply bind_ok in E as (c & h2 & Ec & E).
  apply bind_ok in E as ([] & h3 & Er & E).
  apply bind_ok in E as ([] & h4 & Et & E).
  apply bind_ok in E as (p' & h5 & Epl & E).
  injection E as <- <-.
  exists zs, scale, c, h2, h3, h4. auto 10.
Qed.

Lemma prepare_window s t h T sub a h1 :
  images h !! t = Some T ->
  prepare s t h = (Ok (Some (sub, a)), h1) ->
  within sub (array T) /\ shape sub = shape a /\ keeps h h1.
Proof.
  intros ET E.
  assert (K1 : keeps h h1).
  { pose proof (prepare_keeps s t h) as X. rewrite E in X. exact X. }
  apply prepare_ok in E
    as (zs & scale & c & h2 & h3 & h4 & _ & _ & _ & Ec & Er & Et & Ep).
  pose proof Ec as Ec'. apply copy_ok in Ec' as (S & ES & Hc & Hh2).
  assert (Fc : images h !! c = None) by (subst c; apply fresh_lookup).
  assert (N : c <> t) by (intros ->; rewrite ET in Fc; discriminate).
  assert (K2 : keeps h h2)
    by exact (stable_run _ _ _ _ _ (stable_copy h s) (keeps_refl h) Ec).
  assert (K3 : keeps h h3)
    by exact (stable_run _ _ _ _ _ (stable_resample h c Fc zs scale) K2 Er).
  assert (K4 : keeps h h4)
    by exact (stable_run _ _ _ _ _ (stable_trim h c t Fc) K3 Et).
  pose proof Et as Et'. apply trim_ok in Et' as (S4 & ES4 & Hh & Hw).
  pose proof (place_ok c t S4 T h4 sub a h1 N ES4
                (keeps_image _ _ _ _ K4 ET) Hh Hw Ep)
    as (W & Sh & _ & _ & Ba).
  split; [exact W|]. split; [exact Sh|exact K1].
Qed.

(** ** Writing through a window *)

Lemma cell_lookup {A} (d : A) g r c :
  cell d g r c =
  match g !! r with
  | Some row => default d (row !! c)
  | None => d
  end.
Proof.
  unfold cell. rewrite (nth_lookup g r []).
  destruct (g !! r) as [row|]; simpl.
  - apply nth_lookup.
  - destruct c; reflexivity.
Qed.

Lemma cell_write_window a f g r c :
  cell 0 (write_window a f g) r c =
  match g !! r with
  | Some row =>
      match row !! c with
      | Some x => if in_window a r c
                  then f (r - row0 a)%nat (c - col0 a)%nat x else x
      | None => 0
      end
  | None => 0
  end.
Proof.
  rewrite cell_lookup. unfold write_window.
  rewrite list_lookup_imap. destruct (g !! r) as [row|]; [|reflexivity].
  cbn [fmap option_fmap option_map]. rewrite list_lookup_imap.
  destruct (row !! c); reflexivity.
Qed.

Lemma fits_cell h a g j i :
  fits h a = true -> blocks h !! base a = Some g ->
  (j < nrows a)%nat -> (i < ncols a)%nat ->
  exists row x, g !! (row0 a + j)%nat = Some row /\
                row !! (col0 a + i)%nat = Some x /\
                view_cell h a j i = x.
Proof.
  unfold fits. intros Hf Eg Hj Hi. rewrite Eg in Hf.
  apply andb_true_iff in Hf as [Hr Hc]. apply Nat.leb_le in Hr.
  destruct (lookup_lt_is_Some_2 g (row0 a + j)%nat) as [row Erow]; [lia|].
  rewrite forallb_forall in Hc.
  assert (Hin : In row g).
  { apply list_elem_of_In. eapply list_elem_of_lookup_2. exact Erow. }
  specialize (Hc row Hin). apply Nat.leb_le in Hc.
  destruct (lookup_lt_is_Some_2 row (col0 a + i)%nat) as [x Ex]; [lia|].
  exists row, x. repeat split; try assumption.
  unfold view_cell, block_of. rewrite Eg. simpl.
  rewrite cell_lookup, Erow, Ex. reflexivity.
Qed.

Lemma copyto_greater_ok dst src h u h' :
  copyto_greater dst src h = (Ok u, h') ->
  shape dst = shape src /\
  h' = set_blocks
         (alter (write_window dst
                   (fun r c x => let s := view_cell h src r c in
                                 if x <? s then s else x))
                (base dst)) h.
Proof.
  unfold copyto_greater. destruct (decide _) as [E|E]; [|discriminate].
  intros [= <-]. auto.
Qed.

Lemma copyto_greater_run dst src h :
  shape dst = shape src ->
  exists h', copyto_greater dst src h = (Ok tt, h').
Proof.
  intros E. unfold copyto_greater. destruct (decide _); [|contradiction].
  eauto.
Qed.

(** A cell of an array after [copyto_greater] wrote through a window of it. *)
Lemma copyto_greater_cell dst src a h h' j i :
  copyto_greater dst src h = (Ok tt, h') ->
  within dst a -> fits h a = true ->
  (j < nrows a)%nat -> (i < ncols a)%nat ->
  view_cell h' a j i =
    if in_window dst (row0 a + j) (col0 a + i)
    then Z.max (view_cell h a j i)
               (view_cell h src (row0 a + j - row0 dst) (col0 a + i - col0 dst))
    else view_cell h a j i.
Proof.
  intros E (Eb & _) Hf Hj Hi.
  apply copyto_greater_ok in E as [_ ->].
  destruct (blocks h !! base a) as [g|] eqn:Eg;
    [|unfold fits in Hf; rewrite Eg in Hf; discriminate].
  destruct (fits_cell h a g j i Hf Eg Hj Hi) as (row & x & Er & Ex & Ev).
  rewrite Ev. unfold view_cell at 1, block_of. simpl.
  rewrite Eb, lookup_alter_eq, Eg. simpl.
  rewrite cell_write_window, Er, Ex.
  destruct (in_window dst _ _); [|reflexivity].
  cbv zeta. destruct (x <? _) eqn:C;
    [apply Z.ltb_lt in C|apply Z.ltb_ge in C]; lia.
Qed.

(** * The merge *)

(** C1. A call of [blit_onto] that returns a tile returns the target, and
    went past the guard to a window [sub] of the target's array and an
    array [a] of the same shape, the placed source.  Afterwards every cell
    of the target inside the window holds the maximum of its old value and
    the placed source value, that is the source value exactly when it is
    strictly greater, and every cell outside the window holds its old
    value.  The target's header is as before. *)
Theorem blit_onto_max_merge s t h T r h2 :
  images h !! t = Some T ->
  fits h (array T) = true ->
  blit_onto s t h = (Ok (Some r), h2) ->
  r = t /\
  exists sub a h1,
    prepare s t h = (Ok (Some (sub, a)), h1) /\
    within sub (array T) /\ shape a = shape sub /\
    images h2 !! t = Some T /\
    forall j i, (j < nrows (array T))%nat -> (i < ncols (array T))%nat ->
      let pre := view_cell h (array T) j i in
      let placed := view_cell h1 a (row0 (array T) + j - row0 sub)
                                   (col0 (array T) + i - col0 sub) in
      view_cell h2 (array T) j i =
        (if in_window sub (row0 (array T) + j) (col0 (array T) + i)
         then Z.max pre placed else pre) /\
      Z.max pre placed = (if pre <? placed then placed else pre).
Proof.
  intros ET Hf E. unfold blit_onto in E.
  apply bind_ok in E as (p & h1 & Ep & E).
  destruct p as [[sub a]|]; [|discriminate].
  apply bind_ok in E as ([] & h3 & Ec & E). injection E as <- <-.
  split; [reflexivity|]. exists sub, a, h1.
  destruct (prepare_window s t h T sub a h1 ET Ep) as (W & Sh & K).
  split; [exact Ep|]. split; [exact W|]. split; [symmetry; exact Sh|].
  assert (Hf1 : fits h1 (array T) = true).
  { unfold fits in *. destruct (blocks h !! base (array T)) as [g|] eqn:Eg;
      [|discriminate].
    rewrite (keeps_block _ _ _ _ K Eg). exact Hf. }
  split.
  { pose proof Ec as Ec'. apply copyto_greater_ok in Ec' as [_ ->]. simpl.
    exact (keeps_image _ _ _ _ K ET). }
  intros j i Hj Hi pre placed. split.
  - rewrite (copyto_greater_cell sub a (array T) h1 h3 j i Ec W Hf1 Hj Hi).
    assert (Epre : view_cell h1 (array T) j i = pre).
    { subst pre. unfold view_cell, block_of.
      destruct (blocks h !! base (array T)) as [g|] eqn:Eg.
      - rewrite (keeps_block _ _ _ _ K Eg). reflexivity.
      - unfold fits in Hf. rewrite Eg in Hf. discriminate. }
    rewrite Epre. reflexivity.
  - destruct (pre <? placed) eqn:C;
      [apply Z.ltb_lt in C|apply Z.ltb_ge in C]; lia.
Qed.

Lemma blit_onto_max_merge_witness :
  let h := Scenario.centre in
  let T := Scenario.tile 0 4 4 0 4 0 4 0 10 in
  let h2 := snd (blit_onto Scenario.source Scenario.target h) in
  Scenario.target = Scenario.target /\
  exists sub a h1,
    prepare Scenario.source Scenario.target h = (Ok (Some (sub, a)), h1) /\
    within sub (array T) /\ shape a = shape sub /\
    images h2 !! Scenario.target = Some T /\
    forall j i, (j < nrows (array T))%nat -> (i < ncols (array T))%nat ->
      let pre := view_cell h (array T) j i in
      let placed := view_cell h1 a (row0 (array T) + j - row0 sub)
                                   (col0 (array T) + i - col0 sub) in
      view_cell h2 (array T) j i =
        (if in_window sub (row0 (array T) + j) (col0 (array T) + i)
         then Z.max pre placed else pre) /\
      Z.max pre placed = (if pre <? placed then placed else pre).
Proof.
  intros h T h2.
  apply (blit_onto_max_merge Scenario.source Scenario.target h T
           Scenario.target h2).
  - vm_compute. reflexivity.
  - vm_compute. reflexivity.
  - vm_compute. reflexivity.
Defined.

(** C5. In the scenario of the specification the call returns the target,
    whose rows and columns 1 and 2 hold 1500 = 1000 * 1.5 afterwards and
    whose other cells hold 0; the target keeps its header, and the source
    its header and its grid. *)
Theorem centre_scenario :
  let run := blit_onto Scenario.source Scenario.target Scenario.centre in
  fst run = Ok (Some Scenario.target) /\
  images (snd run) !! Scenario.target = images Scenario.centre !! Scenario.target /\
  contents (snd run) (whole 0 4 4) =
    [ [0; 0; 0; 0]; [0; 1500; 1500; 0]; [0; 1500; 1500; 0]; [0; 0; 0; 0] ] /\
  contents (snd run) (whole 1 2 2) = [ [1000; 1000]; [1000; 1000] ].
Proof. vm_compute. repeat split; reflexivity. Qed.

(** * The scale of the height values *)

(** C7. With the three bounds it reads set, [z_scale] never raises: it is
    [(source.zmax - target.zmin) / (target.zmax - target.zmin)], and [1]
    when [target.zmax - target.zmin] is zero.  The store is not changed. *)
Theorem z_scale_value s t h S T a b c :
  images h !! s = Some S -> images h !! t = Some T ->
  zmax S = Some a -> zmin T = Some b -> zmax T = Some c ->
  z_scale s t h =
    (Ok (if Qeq_bool (c - b) 0 then 1%Q else ((a - b) / (c - b))%Q), h) /\
  ((c - b == 0)%Q -> z_scale s t h = (Ok 1%Q, h)).
Proof.
  intros ES ET Ea Eb Ec.
  assert (E : z_scale s t h =
    (Ok (if Qeq_bool (c - b) 0 then 1%Q else ((a - b) / (c - b))%Q), h)).
  { unfold z_scale, try_zde.
    rewrite (bind_run _ _ _ _ _ (get_image_run _ _ _ ES)).
    rewrite (bind_run _ _ _ _ _ (get_image_run _ _ _ ET)).
    rewrite Ea, Eb, Ec. cbv [py_sub num bind ret py_div raise].
    destruct (Qeq_bool (c - b) 0); reflexivity. }
  split; [exact E|].
  intros Hz. rewrite E. apply Qeq_bool_iff in Hz. rewrite Hz. reflexivity.
Qed.

Lemma z_scale_value_witness :
  z_scale Scenario.source Scenario.target Scenario.centre
  = (Ok (if Qeq_bool (10 - 0) 0 then 1%Q else ((15 - 0) / (10 - 0))%Q),
     Scenario.centre) /\
  ((10 - 0 == 0)%Q ->
   z_scale Scenario.source Scenario.target Scenario.centre
   = (Ok 1%Q, Scenario.centre)).
Proof.
  apply (z_scale_value Scenario.source Scenario.target Scenario.centre
           (Scenario.tile 1 2 2 1 3 1 3 5 15) (Scenario.tile 0 4 4 0 4 0 4 0 10));
    reflexivity.
Defined.

(** On a flat target the division raises and the scale is 1; the call goes
    on and merges the unscaled values. *)
Example z_scale_flat_target :
  z_scale Scenario.source Scenario.target Scenario.flat_target
    = (Ok 1%Q, Scenario.flat_target) /\
  contents (snd (blit_onto Scenario.source Scenario.target Scenario.flat_target))
           (whole 0 4 4) =
    [ [0; 0; 0; 0]; [0; 1000; 1000; 0]; [0; 1000; 1000; 0]; [0; 0; 0; 0] ].
Proof. split; vm_compute; reflexivity. Qed.

(** * Resampling *)

Lemma nth_map_seq {A} (g : nat -> A) m i d :
  (i < m)%nat -> nth i (map g (seq 0 m)) d = g i.
Proof.
  intros H. rewrite (nth_indep _ d (g 0%nat)) by (rewrite length_map, length_seq; exact H).
  rewrite map_nth, seq_nth by exact H. reflexivity.
Qed.

Lemma cell_tabulate {A} (d : A) n m f j i :
  (j < n)%nat -> (i < m)%nat -> cell d (tabulate n m f) j i = f j i.
Proof.
  intros Hj Hi. unfold cell, tabulate.
  rewrite nth_map_seq by exact Hj. apply nth_map_seq. exact Hi.
Qed.

Lemma length_tabulate {A} n m (f : nat -> nat -> A) :
  length (tabulate n m f) = n.
Proof. unfold tabulate. rewrite length_map, length_seq. reflexivity. Qed.

(** A cell of [source.array[::-1, :] * z_scale]. *)
Lemma cell_flip_scale h a zs r k :
  (r < nrows a)%nat -> (k < ncols a)%nat ->
  cell 0%Q (flip_scale (contents h a) zs) r k =
  (qz (view_cell h a (nrows a - 1 - r) k) * zs)%Q.
Proof.
  intros Hr Hk. unfold cell, flip_scale, contents.
  change (@nil Q) with (map (fun v => (qz v * zs)%Q) []).
  rewrite (map_nth (map (fun v => (qz v * zs)%Q))).
  rewrite rev_nth by (rewrite length_tabulate; exact Hr).
  rewrite length_tabulate. unfold tabulate.
  rewrite nth_map_seq by lia.
  rewrite (nth_indep _ 0%Q ((fun v => (qz v * zs)%Q) 0))
    by (rewrite !length_map, length_seq; exact Hk).
  rewrite (map_nth (fun v => (qz v * zs)%Q)). rewrite nth_map_seq by exact Hk.
  replace (nrows a - S r)%nat with (nrows a - 1 - r)%nat by lia. reflexivity.
Qed.

Lemma to_uint16_range q : 0 <= to_uint16 q < 65536.
Proof.
  unfold to_uint16. cbv zeta.
  destruct ((- 2 ^ 31 <=? py_int q) && (py_int q <? 2 ^ 31)).
  - apply Z.mod_pos_bound. lia.
  - lia.
Qed.

(** Within the range of [numpy.uint16] the conversion drops the fraction. *)
Lemma to_uint16_floor q :
  (0 <= q)%Q -> (q <= 65535)%Q -> to_uint16 q = Qfloor q.
Proof.
  intros H0 H1. unfold to_uint16, py_int. cbv zeta.
  replace (Qle_bool 0 q) with true by (symmetry; apply Qle_bool_iff; exact H0).
  assert (L : 0 <= Qfloor q).
  { change 0 with (Qfloor 0). apply Qfloor_resp_le. exact H0. }
  assert (U : Qfloor q <= 65535).
  { change 65535 with (Qfloor 65535). apply Qfloor_resp_le. exact H1. }
  replace ((- 2 ^ 31 <=? Qfloor q) && (Qfloor q <? 2 ^ 31)) with true
    by (symmetry; apply andb_true_iff; split; [apply Z.leb_le|apply Z.ltb_lt]; lia).
  apply Z.mod_small. lia.
Qed.




Lemma Qfloor_div a b : 0 < b -> Qfloor (inject_Z a / inject_Z b) = a / b.
Proof.
  intros Hb. destruct b as [|p|p]; try lia.
  rewrite <- (Qfloor_comp _ _ (Qmake_Qdiv a p)). reflexivity.
Qed.

(** The coordinate of an output index, plus a half, as one fraction. *)
Lemma zoom_coordinate n out j :
  Z.of_nat out - 1 <> 0 ->
  (qn j * zoom_step n out + (1 # 2) ==
   inject_Z (2 * Z.of_nat j * (Z.of_nat n - 1) + (Z.of_nat out - 1)) /
   inject_Z (2 * (Z.of_nat out - 1)))%Q.
Proof.
  intros Ho. unfold zoom_step, qn.
  destruct (Z.eqb_spec (Z.of_nat out - 1) 0) as [E|_]; [contradiction|].
  rewrite !inject_Z_plus, !inject_Z_mult.
  assert (Hn : ~ (inject_Z (Z.of_nat out - 1) == 0)%Q).
  { intros E. apply Ho. unfold Qeq in E. cbn in E. lia. }
  field. exact Hn.
Qed.

Lemma zoom_index_div n out j :
  (0 < n)%nat -> (1 < out)%nat ->
  Z.of_nat (zoom_index n out j) =
  (2 * Z.of_nat j * (Z.of_nat n - 1) + (Z.of_nat out - 1)) / (2 * (Z.of_nat out - 1)).
Proof.
  intros Hn Ho. unfold zoom_index.
  rewrite (Qfloor_comp _ _ (zoom_coordinate n out j ltac:(lia))).
  rewrite Qfloor_div by lia.
  apply Z2Nat.id. apply Z.div_pos; nia.
Qed.



Lemma resample_run c zs scale h S :
  images h !! c = Some S ->
  refused (nrows (array S)) (ncols (array S)) (fst scale) (snd scale) = false ->
  let a := array S in
  let n' := zoom_length (nrows a) (fst scale) in
  let m' := zoom_length (ncols a) (snd scale) in
  let l := fresh (dom (blocks h)) in
  let out := zoom_cells (flip_scale (contents h a) zs) (nrows a) (ncols a) n' m' in
  resample c zs scale h =
    (Ok tt,
     mkHeap (<[l := out]> (blocks h))
            (<[c := with_shape (Z.of_nat n') (Z.of_nat m')
                               (with_array (whole l n' m') S)]> (images h))).
Proof.
  intros ES G a n' m' l out. unfold resample.
  rewrite (bind_run _ _ _ _ _ (get_image_run _ _ _ ES)).
  fold a in G.
  cbv [bind get_heap zoom]. fold a. rewrite G.
  cbv [bind np_array alloc_block ret]. fold l. fold n'. fold m'. fold out.
  unfold update_image at 1. cbn [images set_blocks]. rewrite ES.
  unfold refresh, bind, get_image, update_image.
  cbn [images set_images blocks]. rewrite lookup_insert_eq.
  cbn [images set_images blocks]. rewrite lookup_insert_eq.
  unfold set_images, set_blocks. cbn [images blocks].
  rewrite insert_insert_eq. reflexivity.
Qed.

Lemma resample_raises c zs scale h S :
  images h !! c = Some S ->
  refused (nrows (array S)) (ncols (array S)) (fst scale) (snd scale) = true ->
  resample c zs scale h = (Raise ValueError, h).
Proof.
  intros ES G. unfold resample.
  rewrite (bind_run _ _ _ _ _ (get_image_run _ _ _ ES)).
  cbv [bind get_heap zoom]. rewrite G. reflexivity.
Qed.

Lemma resample_ok c zs scale h S u h' :
  images h !! c = Some S ->
  resample c zs scale h = (Ok u, h') ->
  refused (nrows (array S)) (ncols (array S)) (fst scale) (snd scale) = false.
Proof.
  intros ES Er. destruct (refused (nrows (array S)) (ncols (array S)) (fst scale) (snd scale)) eqn:G; [|reflexivity].
  rewrite (resample_raises c zs scale h S ES G) in Er. discriminate Er.
Qed.




(** The tie of [zoom]: two columns [10, 20] stretched to three are
    [10, 20, 20]; the middle output column, at the coordinate 1/2, reads
    the second input column. *)
Example zoom_stretch :
  exists c h1 S',
    Scenario.resampled Scenario.stretch = (Ok c, h1) /\
    images h1 !! c = Some S' /\
    contents h1 (array S') = [[10; 20; 20]].
Proof.
  exists 2%nat. do 2 eexists.
  split; [vm_compute; reflexivity|].
  split; [vm_compute; reflexivity|].
  vm_compute. reflexivity.
Qed.

(** When a density ratio is zero nothing is resampled, trimmed or merged
    and the store is left as it is; the value of the call is [None]. *)
Lemma blit_onto_guard s t h zs scale :
  z_scale s t h = (Ok zs, h) ->
  pixel_scale s t h = (Ok scale, h) ->
  Qeq_bool (fst scale) 0 || Qeq_bool (snd scale) 0 = true ->
  blit_onto s t h = (Ok None, h).
Proof.
  intros Ez Ep G. unfold blit_onto, prepare, bind.
  rewrite Ez, Ep, G. reflexivity.
Qed.

(** C6. A 2x2 source before a target without rows: the row density ratio
    is zero, the store after the call is the store before it, and the call
    returns [None], not the target. *)
Theorem zero_scale_returns_none :
  let h := Scenario.no_rows in
  (exists r c, fst (pixel_scale Scenario.source Scenario.target h) = Ok (r, c) /\
               Qeq_bool r 0 = true) /\
  blit_onto Scenario.source Scenario.target h = (Ok None, h) /\
  fst (blit_onto Scenario.source Scenario.target h) <> Ok (Some Scenario.target).
Proof.
  split; [|split].
  - eexists. eexists. split; vm_compute; reflexivity.
  - vm_compute. reflexivity.
  - vm_compute. discriminate.
Qed.

(** * The trims *)

(** The [xmin] clip: nothing happens unless the target's bound is strictly
    inside the source's; then the columns left of
    [int(source.width * (target.xmin - source.xmin) / (source.xmax - source.xmin))]
    are dropped and [source.xmin] becomes [target.xmin]. *)
Lemma trim_xmin_skip c t h S T sx tx :
  images h !! c = Some S -> images h !! t = Some T ->
  xmin S = Some sx -> xmin T = Some tx -> (tx <= sx)%Q ->
  trim_xmin c t h = (Ok tt, h).
Proof.
  intros ES ET Es Et Hle. unfold trim_xmin.
  rewrite (bind_run _ _ _ _ _ (get_image_run _ _ _ ES)).
  rewrite (bind_run _ _ _ _ _ (get_image_run _ _ _ ET)).
  rewrite Es, Et. cbv [py_gt num bind ret Qlt_bool].
  replace (Qle_bool tx sx) with true
    by (symmetry; apply Qle_bool_iff; exact Hle).
  reflexivity.
Qed.

Lemma trim_xmin_clip c t h S T sx tx sX :
  images h !! c = Some S -> images h !! t = Some T ->
  xmin S = Some sx -> xmin T = Some tx -> xmax S = Some sX ->
  (sx < tx)%Q -> ~ (sX - sx == 0)%Q ->
  let i := py_int (qz (width S) * (tx - sx) / (sX - sx)) in
  trim_xmin c t h =
    (Ok tt,
     set_images
       (insert c (with_array
                    (cols_view (array S) (slice_from (ncols (array S)) i))
                    (with_xmin (Some tx) S))) h).
Proof.
  intros ES ET Es Et EX Hlt Hnz i. unfold trim_xmin.
  rewrite (bind_run _ _ _ _ _ (get_image_run _ _ _ ES)).
  rewrite (bind_run _ _ _ _ _ (get_image_run _ _ _ ET)).
  rewrite Es, Et, EX.
  cbv [py_gt edge_index py_sub py_div num bind ret raise Qlt_bool].
  replace (Qle_bool tx sx) with false.
  2:{ symmetry. apply not_true_is_false. intros H.
      apply Qle_bool_iff in H. apply (Qlt_not_le _ _ Hlt H). }
  cbn [negb].
  replace (Qeq_bool (sX - sx) 0) with false.
  2:{ symmetry. apply not_true_is_false. intros H.
      apply Qeq_bool_iff in H. exact (Hnz H). }
  unfold update_image, get_image. rewrite ES.
  unfold set_images. cbn [images blocks].
  rewrite (lookup_insert_eq (images h)). cbn [images blocks].
  rewrite (lookup_insert_eq (images h)). cbn [images blocks].
  rewrite insert_insert_eq. reflexivity.
Qed.

(** C3. A source of 2 rows and 4 columns whose lower half lies below the
    target.  After resampling the copy (object 2) has 2 rows and 4 columns.
    The [ymin] trim takes its row index from the width,
    [int(4 * (1 - 0) / (2 - 0)) = 2], and drops both rows; with the row
    count the index is 1 and one row stays.  The target is left all zero
    by the call. *)
Theorem trim_rows_indexed_by_width :
  let h1 := snd (Scenario.resampled Scenario.upper_half) in
  let c := 2%nat in
  fst (Scenario.resampled Scenario.upper_half) = Ok c /\
  Scenario.shape_of h1 c = Some (2%nat, 4%nat) /\
  fst (edge_index 4 (Some 1%Q) (Some 0%Q) (Some 2%Q) (Some 0%Q) h1) = Ok 2 /\
  fst (edge_index 2 (Some 1%Q) (Some 0%Q) (Some 2%Q) (Some 0%Q) h1) = Ok 1 /\
  Scenario.shape_of (snd (trim c Scenario.target h1)) c = Some (0%nat, 4%nat) /\
  Scenario.shape_of (snd (AsSpecified.trim_by_rows c Scenario.target h1)) c
    = Some (1%nat, 4%nat) /\
  contents (snd (blit_onto Scenario.source Scenario.target Scenario.upper_half))
           (whole 0 1 4) = [ [0; 0; 0; 0] ].
Proof. vm_compute. repeat split; reflexivity. Qed.

(** C4. A source of 1 row and 8 columns of which the target covers
    columns 4 and 5.  The [xmin] trim drops 4 columns and sets
    [source.xmin = 4]; the [xmax] trim then still reads the width 8 and
    computes [int(8 * (6 - 8) / (8 - 4)) = -4], so that no column is left.
    With the width refreshed after the first trim the index is
    [int(4 * (6 - 8) / (8 - 4)) = -2] and two columns stay.  The target is
    left all zero by the call. *)
Theorem trim_reads_stale_width :
  let h1 := snd (Scenario.resampled Scenario.middle_columns) in
  let c := 2%nat in
  fst (Scenario.resampled Scenario.middle_columns) = Ok c /\
  Scenario.shape_of h1 c = Some (1%nat, 8%nat) /\
  (width <$> images (snd (trim_xmin c Scenario.target h1)) !! c) = Some 8 /\
  Scenario.shape_of (snd (trim_xmin c Scenario.target h1)) c
    = Some (1%nat, 4%nat) /\
  fst (edge_index 8 (Some 6%Q) (Some 8%Q) (Some 8%Q) (Some 4%Q) h1) = Ok (-4) /\
  fst (edge_index 4 (Some 6%Q) (Some 8%Q) (Some 8%Q) (Some 4%Q) h1) = Ok (-2) /\
  Scenario.shape_of (snd (trim c Scenario.target h1)) c = Some (1%nat, 0%nat) /\
  Scenario.shape_of (snd (AsSpecified.trim_refreshed c Scenario.target h1)) c
    = Some (1%nat, 2%nat) /\
  contents (snd (blit_onto Scenario.source Scenario.target Scenario.middle_columns))
           (whole 0 1 2) = [ [0; 0] ].
Proof. vm_compute. repeat split; reflexivity. Qed.

(** * What blit_onto leaves alone *)

(** The images of the store are never changed by [blit_onto], and of the
    blocks only the one behind the target's array is written. *)
Lemma blit_onto_images s t h :
  images h ⊆ images (snd (blit_onto s t h)).
Proof.
  pose proof (prepare_keeps s t h) as [Ki _].
  unfold blit_onto, bind. destruct (prepare s t h) as [[[[sub a]|]|e] h1];
    simpl in *; try exact Ki.
  unfold copyto_greater. destruct (decide _); simpl; exact Ki.
Qed.

Lemma blit_onto_blocks s t h T l g :
  images h !! t = Some T -> l <> base (array T) ->
  blocks h !! l = Some g -> blocks (snd (blit_onto s t h)) !! l = Some g.
Proof.
  intros ET N Eg.
  pose proof (prepare_keeps s t h) as K.
  unfold blit_onto, bind.
  destruct (prepare s t h) as [[[[sub a]|]|e] h1] eqn:Ep; simpl in *;
    try exact (keeps_block _ _ _ _ K Eg).
  destruct (prepare_window s t h T sub a h1 ET Ep) as ((Eb & _) & _ & _).
  unfold copyto_greater. destruct (decide _); simpl;
    [|exact (keeps_block _ _ _ _ K Eg)].
  rewrite lookup_alter_ne by (rewrite Eb; auto).
  exact (keeps_block _ _ _ _ K Eg).
Qed.

Lemma contents_block h h' a :
  blocks h' !! base a = blocks h !! base a -> contents h' a = contents h a.
Proof.
  intros E. unfold contents, tabulate, view_cell, block_of. rewrite E.
  reflexivity.
Qed.

(** C10, as amended. When the source's array and the target's array are
    on different blocks, the source is the same after the call, whether
    the call returns or raises: its width, height, bounds and array
    reference, the block of its array, and so the contents of its grid. *)
Theorem blit_onto_source_unchanged s t h S T g :
  images h !! s = Some S -> images h !! t = Some T ->
  blocks h !! base (array S) = Some g ->
  base (array S) <> base (array T) ->
  source_unchanged s t h /\
  blocks (snd (blit_onto s t h)) !! base (array S) = Some g.
Proof.
  intros ES ET Eg N.
  pose proof (blit_onto_blocks s t h T _ g ET N Eg) as Eb.
  split; [|exact Eb]. split.
  - rewrite ES. eapply lookup_weaken; [exact ES|apply blit_onto_images].
  - intros S' ES'. rewrite ES in ES'. injection ES' as <-.
    apply contents_block. rewrite Eb, Eg. reflexivity.
Qed.

Lemma blit_onto_source_unchanged_witness :
  source_unchanged Scenario.source Scenario.target Scenario.centre /\
  blocks (snd (blit_onto Scenario.source Scenario.target Scenario.centre))
    !! 1%nat = Some (replicate 2 (replicate 2 1000)).
Proof.
  apply (blit_onto_source_unchanged Scenario.source Scenario.target
           Scenario.centre (Scenario.tile 1 2 2 1 3 1 3 5 15)
           (Scenario.tile 0 4 4 0 4 0 4 0 10)).
  - vm_compute. reflexivity.
  - vm_compute. reflexivity.
  - vm_compute. reflexivity.
  - vm_compute. lia.
Defined.

(** C10, as stated, fails when the source is the target: a tile with all
    six bounds set, [5] above [0], blitted onto itself holds [5] in both
    rows afterwards. *)
Lemma blit_onto_self_changes_source :
  (exists S, images Scenario.mirror !! 0%nat = Some S /\
     is_Some (xmin S) /\ is_Some (ymin S) /\ is_Some (zmin S) /\
     is_Some (xmax S) /\ is_Some (ymax S) /\ is_Some (zmax S)) /\
  contents Scenario.mirror (whole 0 2 1) = [ [5]; [0] ] /\
  contents (snd (blit_onto 0%nat 0%nat Scenario.mirror)) (whole 0 2 1)
    = [ [5]; [5] ] /\
  ~ source_unchanged 0%nat 0%nat Scenario.mirror.
Proof.
  split; [|split; [|split]].
  - eexists. split; [vm_compute; reflexivity|]. simpl. repeat split; eauto.
  - vm_compute. reflexivity.
  - vm_compute. reflexivity.
  - intros [_ H]. specialize (H (Scenario.tile 0 2 1 0 1 0 2 0 10)).
    assert (E : images Scenario.mirror !! 0%nat
                = Some (Scenario.tile 0 2 1 0 1 0 2 0 10))
      by (vm_compute; reflexivity).
    specialize (H E). vm_compute in H. discriminate H.
Qed.

(** * copy *)

Lemma within_refl a : within a a.
Proof. unfold within. repeat split; lia. Qed.

(** C9. [copy] of a tile with nonnegative width and height returns a new
    object [c] whose header equals the original's: width, height, the six
    bounds, and the very same array, window and block.
    - Assigning any attribute of the copy leaves the original's header as
      it is.
    - Before the copy's array is reassigned, a write through it is a write
      to the original's grid: after [copyto_greater] through the copy's
      array the original reads the larger values.
    - After [resample] has reassigned the copy's array, that array is on a
      block which did not exist before, and a write through it leaves the
      block and the header of the original as they are. *)
Theorem copy_aliases_until_reassigned s h S g :
  images h !! s = Some S -> 0 <= width S -> 0 <= height S ->
  blocks h !! base (array S) = Some g ->
  exists c h1,
    copy s h = (Ok c, h1) /\
    c <> s /\ images h !! c = None /\
    images h1 !! c = Some S /\ images h1 !! s = Some S /\
    blocks h1 !! base (array S) = Some g /\
    (forall f, images (snd (update_image c f h1)) !! s = Some S) /\
    (forall C src h2 j i,
        images h1 !! c = Some C ->
        copyto_greater (array C) src h1 = (Ok tt, h2) ->
        fits h1 (array S) = true ->
        (j < nrows (array S))%nat -> (i < ncols (array S))%nat ->
        view_cell h2 (array S) j i
        = Z.max (view_cell h1 (array S) j i) (view_cell h1 src j i)) /\
    (forall zs scale h2 C src h3,
        resample c zs scale h1 = (Ok tt, h2) ->
        images h2 !! c = Some C ->
        copyto_greater (array C) src h2 = (Ok tt, h3) ->
        blocks h1 !! base (array C) = None /\
        base (array C) <> base (array S) /\
        blocks h3 !! base (array S) = Some g /\
        images h3 !! s = Some S).
Proof.
  intros ES Hw Hh Eg.
  exists (fresh (dom (images h))), (copy_heap S h).
  set (c := fresh (dom (images h))).
  assert (Fc : images h !! c = None) by apply fresh_lookup.
  assert (N : c <> s) by (intros E; rewrite E, ES in Fc; discriminate).
  assert (Fl : blocks h !! fresh (dom (blocks h)) = None) by apply fresh_lookup.
  assert (Nl : fresh (dom (blocks h)) <> base (array S))
    by (intros E; rewrite E, Eg in Fl; discriminate).
  assert (Ec : images (copy_heap S h) !! c = Some S)
    by (unfold copy_heap; cbn [images]; apply lookup_insert_eq).
  assert (Es1 : images (copy_heap S h) !! s = Some S)
    by (unfold copy_heap; cbn [images]; rewrite lookup_insert_ne by exact N;
        exact ES).
  assert (Eg1 : blocks (copy_heap S h) !! base (array S) = Some g)
    by (unfold copy_heap; cbn [blocks]; rewrite lookup_insert_ne by exact Nl;
        exact Eg).
  split; [apply copy_run; assumption|].
  split; [exact N|]. split; [exact Fc|]. split; [exact Ec|].
  split; [exact Es1|]. split; [exact Eg1|]. split; [|split].
  - intros f. rewrite (update_image_run c f S _ Ec). cbn [snd set_images images].
    rewrite lookup_insert_ne by exact N. exact Es1.
  - intros C src h2 j i EC Hc Hf Hj Hi.
    rewrite Ec in EC. injection EC as <-.
    rewrite (copyto_greater_cell (array S) src (array S) _ h2 j i Hc
               (within_refl _) Hf Hj Hi).
    replace (in_window (array S) (row0 (array S) + j) (col0 (array S) + i))
      with true.
    + f_equal. f_equal; lia.
    + symmetry. unfold in_window.
      assert (A1 : (row0 (array S) <=? row0 (array S) + j)%nat = true)
        by (apply Nat.leb_le; lia).
      assert (A2 : (row0 (array S) + j <? row0 (array S) + nrows (array S))%nat
                   = true) by (apply Nat.ltb_lt; lia).
      assert (A3 : (col0 (array S) <=? col0 (array S) + i)%nat = true)
        by (apply Nat.leb_le; lia).
      assert (A4 : (col0 (array S) + i <? col0 (array S) + ncols (array S))%nat
                   = true) by (apply Nat.ltb_lt; lia).
      rewrite A1, A2, A3, A4. reflexivity.
  - intros zs scale h2 C src h3 Er EC Ew.
    pose proof (resample_run c zs scale _ S Ec
                  (resample_ok _ _ _ _ _ _ _ Ec Er)) as R. cbv zeta in R.
    rewrite R in Er. injection Er as <-.
    cbn [images] in EC. rewrite lookup_insert_eq in EC. injection EC as <-.
    cbn [array with_shape with_array base whole] in *.
    apply copyto_greater_ok in Ew as [_ ->].
    cbn [base blocks images set_blocks].
    set (l := fresh (dom (blocks (copy_heap S h)))).
    assert (Fl1 : blocks (copy_heap S h) !! l = None) by apply fresh_lookup.
    assert (Nl1 : l <> base (array S))
      by (intros E; rewrite E, Eg1 in Fl1; discriminate).
    split; [exact Fl1|]. split; [exact Nl1|]. split.
    + rewrite lookup_alter_ne by exact Nl1.
      rewrite lookup_insert_ne by exact Nl1. exact Eg1.
    + rewrite lookup_insert_ne by exact N. exact Es1.
Qed.

Lemma copy_aliases_until_reassigned_witness :
  exists c h1,
    copy Scenario.source Scenario.centre = (Ok c, h1) /\
    c <> Scenario.source /\
    images h1 !! c = images h1 !! Scenario.source.
Proof.
  destruct (copy_aliases_until_reassigned Scenario.source Scenario.centre
              (Scenario.tile 1 2 2 1 3 1 3 5 15)
              (replicate 2 (replicate 2 1000)))
    as (c & h1 & E & N & _ & Ec & Es & _).
  - vm_compute. reflexivity.
  - vm_compute. discriminate.
  - vm_compute. discriminate.
  - vm_compute. reflexivity.
  - exists c, h1. split; [exact E|]. split; [exact N|].
    rewrite Ec, Es. reflexivity.
Defined.

(** * The shape invariant *)

Lemma tile_ok_weaken h h' r :
  images h ⊆ images h' -> tile_ok h r -> tile_ok h' r.
Proof.
  intros Hs (i & E & Hi). exists i. split; [|exact Hi].
  eapply lookup_weaken; eauto.
Qed.

Lemma tile_ok_insert_fresh h h' r i :
  images h !! r = None -> images h' = <[r := i]> (images h) ->
  forall r', tile_ok h r' -> tile_ok h' r'.
Proof.
  intros F E r'. apply tile_ok_weaken. rewrite E.
  apply insert_subseteq. exact F.
Qed.

Lemma stable_tile_alloc_block r g : stable (fun h => tile_ok h r) (alloc_block g).
Proof. intros h H. exact H. Qed.

Lemma stable_tile_alloc_image r i : stable (fun h => tile_ok h r) (alloc_image i).
Proof.
  intros h H. simpl. eapply tile_ok_insert_fresh; [apply fresh_lookup| |exact H].
  reflexivity.
Qed.

Lemma stable_tile_update r c f :
  (forall i, shape_ok i -> shape_ok (f i)) ->
  stable (fun h => tile_ok h r) (update_image c f).
Proof.
  intros Hf h (i & E & Hi). unfold update_image.
  destruct (images h !! c) as [j|] eqn:Ej; [|exists i; auto].
  simpl. unfold tile_ok. simpl.
  destruct (decide (c = r)) as [->|N].
  - rewrite lookup_insert_eq. rewrite E in Ej. injection Ej as <-. eauto.
  - rewrite lookup_insert_ne by exact N. eauto.
Qed.

Lemma stable_tile_Image_init r w hg :
  stable (fun h => tile_ok h r) (Image_init w hg).
Proof.
  unfold Image_init, np_zeros. destruct (_ || _).
  - apply stable_bind; [apply stable_raise|]. intros a. apply stable_tile_alloc_image.
  - apply stable_bind; [|intros a; apply stable_tile_alloc_image].
    apply stable_bind; [apply stable_tile_alloc_block|]. intros l.
    apply stable_ret.
Qed.

Lemma stable_tile_set_bounds r region u i :
  stable (fun h => tile_ok h r) (set_bounds region u i).
Proof.
  unfold set_bounds.
  repeat (apply stable_bind;
          [first [apply stable_index
                 |apply stable_tile_update; intros ? H; exact H]
          |intros ?]).
  apply stable_ret.
Qed.

Lemma set_bounds_value region u i h r h' :
  set_bounds region u i h = (Ok r, h') -> r = i.
Proof.
  unfold set_bounds. intros E.
  repeat (apply bind_ok in E as (? & ? & _ & E)).
  injection E as <- _. reflexivity.
Qed.

Lemma Image_init_tile_ok w hg h r h' :
  Image_init w hg h = (Ok r, h') -> tile_ok h' r.
Proof.
  intros E. apply Image_init_ok in E as (a & h1 & En & _ & _ & ->).
  apply np_zeros_ok in En as (Hh & Hw & -> & _).
  eexists. split; [simpl; apply lookup_insert_eq|].
  split; simpl; lia.
Qed.

(** [pixels] leaves the images as they are, or gives [self] a new array of
    the shape of the old one. *)
Lemma pixels_images self flip_y h :
  let h' := snd (pixels self flip_y h) in
  images h' = images h \/
  exists me l,
    images h !! self = Some me /\
    images h' = <[self := with_array (whole l (nrows (array me))
                                            (ncols (array me))) me]> (images h).
Proof.
  unfold pixels, bind, get_heap, get_image.
  destruct (images h !! self) as [me|] eqn:E; [|left; reflexivity].
  destruct (c_contiguous _ _).
  - left. unfold ret. rewrite E.
    destruct (height me <? 0); reflexivity.
  - right. exists me, (fresh (dom (blocks h))). split; [reflexivity|].
    unfold np_array, alloc_block, bind, ret, update_image.
    cbn [images set_blocks set_images]. rewrite E.
    cbn [images set_blocks set_images]. rewrite lookup_insert_eq.
    destruct (height _ <? 0); reflexivity.
Qed.

Lemma pixels_tile_ok self flip_y h r :
  tile_ok h r -> tile_ok (snd (pixels self flip_y h)) r.
Proof.
  intros (i & Ei & Hi).
  destruct (pixels_images self flip_y h) as [E|(me & l & Em & E)];
    unfold tile_ok; rewrite E.
  - eauto.
  - destruct (decide (self = r)) as [->|N].
    + rewrite lookup_insert_eq. rewrite Ei in Em. injection Em as <-.
      eexists. split; [reflexivity|]. exact Hi.
    + rewrite lookup_insert_ne by exact N. eauto.
Qed.

Lemma save_tile_ok self h r :
  tile_ok h r -> tile_ok (snd (save self h)) r.
Proof.
  intros H. unfold save, bind, get_image.
  destruct (images h !! self) as [me|]; [|exact H].
  unfold num. destruct (xmin me), (ymin me), (zmin me),
    (xmax me), (ymax me), (zmax me); simpl; try exact H.
  all: apply pixels_tile_ok; exact H.
Qed.

(** C8. Every completed call of the public interface keeps the shape
    invariant: a tile whose height and width were the row and column counts
    of its array before the call has them so afterwards, and the tile that
    a constructor or [copy] returns has them so too ([copy] hands on the
    shape of the tile copied). *)
Theorem shape_invariant c h new h' :
  run c h = (Ok new, h') ->
  (forall r, tile_ok h r -> tile_ok h' r) /\
  (forall r, new = Some r ->
             (forall s, c = CallCopy s -> tile_ok h s) -> tile_ok h' r).
Proof.
  intros E. destruct c as [w hg|region u|self|self flip_y|self|source target];
    simpl in E; apply bind_ok in E as (x & h1 & E & Er);
    injection Er as <- <-.
  - split.
    + intros r H.
      exact (stable_run _ _ _ _ _ (stable_tile_Image_init r w hg) H E).
    + intros r [= <-] _. eapply Image_init_tile_ok; eauto.
  - change (from_region region u)
      with (i <- Image_init (Z.of_nat (ni region)) (Z.of_nat (nj region)) ;;
            set_bounds region u i) in E.
    apply bind_ok in E as (i & h2 & Ei & Eb). split.
    + intros r H.
      pose proof (stable_run _ _ _ _ _ (stable_tile_Image_init r _ _) H Ei) as H2.
      exact (stable_run _ _ _ _ _ (stable_tile_set_bounds r region u i) H2 Eb).
    + intros r [= <-] _.
      pose proof (set_bounds_value _ _ _ _ _ _ Eb) as ->.
      pose proof (Image_init_tile_ok _ _ _ _ _ Ei) as H2.
      exact (stable_run _ _ _ _ _ (stable_tile_set_bounds i region u i) H2 Eb).
  - apply copy_ok in E as (S & ES & -> & ->). split.
    + intros r. apply (tile_ok_insert_fresh h _ (fresh (dom (images h))) S);
        [apply fresh_lookup|reflexivity].
    + intros r [= <-] Hs. destruct (Hs self eq_refl) as (S' & ES' & Hok).
      rewrite ES in ES'. injection ES' as <-.
      exists S. split; [simpl; apply lookup_insert_eq|exact Hok].
  - split; [|intros r [=]].
    intros r H. pose proof (pixels_tile_ok self flip_y h r H) as P.
    rewrite E in P. exact P.
  - split; [|intros r [=]].
    intros r H. pose proof (save_tile_ok self h r H) as P.
    rewrite E in P. exact P.
  - split; [|intros r [=]].
    intros r H. pose proof (blit_onto_images source target h) as P.
    rewrite E in P. exact (tile_ok_weaken _ _ _ P H).
Qed.

Lemma shape_invariant_witness :
  let h := Scenario.centre in
  let h' := snd (run (CallCopy Scenario.source) h) in
  (forall r, tile_ok h r -> tile_ok h' r) /\
  (forall r, Some 2%nat = Some r ->
             (forall s, CallCopy Scenario.source = CallCopy s -> tile_ok h s) ->
             tile_ok h' r).
Proof.
  intros h h'.
  apply (shape_invariant (CallCopy Scenario.source) h (Some 2%nat) h').
  vm_compute. reflexivity.
Defined.

(** * Further properties *)

(** ** Construction *)

Lemma cell_zeros n m r c : cell 0 (replicate n (replicate m 0)) r c = 0.
Proof.
  rewrite cell_lookup. destruct (replicate n _ !! r) as [row|] eqn:E;
    [|reflexivity].
  apply lookup_replicate in E as [-> _].
  destruct (replicate m 0 !! c) as [x|] eqn:E'; [|reflexivity].
  apply lookup_replicate in E' as [-> _]. reflexivity.
Qed.

Lemma fits_whole h l n m g :
  blocks h !! l = Some g -> length g = n ->
  (forall row, row ∈ g -> length row = m) ->
  fits h (whole l n m) = true.
Proof.
  intros Eg Hn Hm. unfold fits. cbn [base whole row0 nrows col0 ncols].
  rewrite Eg. apply andb_true_iff. split.
  - apply Nat.leb_le. lia.
  - apply forallb_forall. intros row Hin. apply Nat.leb_le.
    rewrite (Hm row) by (apply list_elem_of_In; exact Hin). lia.
Qed.

(** X1. [Image(w, h)] with nonnegative [w] and [h] returns an object that
    did not exist, of width [w] and height [h], with the six bounds unset,
    whose array is a new block of [h] rows and [w] columns holding zero in
    every cell; what was in the store before stays.  With a negative [w] or
    [h] the call raises [ValueError] and the store is as before. *)
Theorem Image_init_blank w hg h :
  (0 <= w -> 0 <= hg ->
   exists r i h',
     Image_init w hg h = (Ok r, h') /\
     images h !! r = None /\ keeps h h' /\
     images h' !! r = Some i /\
     width i = w /\ height i = hg /\
     bounds i = [None; None; None; None; None; None] /\
     shape (array i) = (Z.to_nat hg, Z.to_nat w) /\
     blocks h !! base (array i) = None /\
     fits h' (array i) = true /\
     forall j k, view_cell h' (array i) j k = 0) /\
  (w < 0 \/ hg < 0 -> Image_init w hg h = (Raise ValueError, h)).
Proof.
  split.
  - intros Hw Hh.
    destruct (Image_init w hg h) as [[r|e] h'] eqn:E.
    + pose proof (stable_run _ _ _ _ _ (stable_Image_init h w hg)
                    (keeps_refl h) E) as K.
      apply Image_init_ok in E as (a & h1 & En & _ & Fr & ->).
      apply np_zeros_ok in En as (_ & _ & -> & ->).
      eexists r, _, _. split; [reflexivity|].
      split; [exact Fr|]. split; [exact K|].
      cbn [images set_images set_blocks]. rewrite lookup_insert_eq.
      split; [reflexivity|].
      cbn [width height bounds xmin ymin zmin xmax ymax zmax array shape
           whole nrows ncols base].
      do 4 (split; [reflexivity|]).
      split; [apply fresh_lookup|]. split.
      * eapply fits_whole.
        -- cbn [blocks set_images set_blocks]. apply lookup_insert_eq.
        -- apply length_replicate.
        -- intros row Hin. apply elem_of_replicate_inv in Hin as ->.
           apply length_replicate.
      * intros j k. unfold view_cell, block_of.
        cbn [blocks set_images set_blocks base whole].
        rewrite lookup_insert_eq. apply cell_zeros.
    + exfalso. unfold Image_init, np_zeros in E.
      replace (hg <? 0) with false in E by (symmetry; apply Z.ltb_ge; lia).
      replace (w <? 0) with false in E by (symmetry; apply Z.ltb_ge; lia).
      discriminate E.
  - intros Hneg. unfold Image_init, np_zeros.
    replace ((hg <? 0) || (w <? 0)) with true; [reflexivity|].
    symmetry. apply orb_true_iff.
    destruct Hneg; [right|left]; apply Z.ltb_lt; assumption.
Qed.

Lemma Image_init_blank_witness :
  exists r i h',
    Image_init 3 2 Scenario.centre = (Ok r, h') /\
    images h' !! r = Some i /\ width i = 3 /\ height i = 2 /\
    forall j k, view_cell h' (array i) j k = 0.
Proof.
  destruct (proj1 (Image_init_blank 3 2 Scenario.centre))
    as (r & i & h' & E & _ & _ & Ei & Hw & Hh & _ & _ & _ & _ & Hz);
    [lia|lia|].
  exists r, i, h'. auto.
Defined.

Lemma bounds_step {A} (l : list Q) k x i (f : Q -> Image -> Image)
      (rest : M A) bl im J :
  l !! k = Some x ->
  (q <- index l k ;; update_image i (f q) ;;; rest) (mkHeap bl (<[i:=J]> im))
  = rest (mkHeap bl (<[i:=f x J]> im)).
Proof.
  intros E. unfold bind, index, update_image. rewrite E. unfold ret.
  cbn [images]. rewrite lookup_insert_eq. unfold set_images.
  cbn [images blocks]. rewrite insert_insert_eq. reflexivity.
Qed.

Lemma Qmult_1_r_eq (q : Q) : (q * 1)%Q = q.
Proof.
  destruct q as [n d]. unfold Qmult. cbn [Qnum Qden].
  rewrite Z.mul_1_r, Pos.mul_1_r. reflexivity.
Qed.

Lemma keeps_fresh_inserts h g i :
  keeps h (mkHeap (<[fresh (dom (blocks h)) := g]> (blocks h))
                  (<[fresh (dom (images h)) := i]> (images h))).
Proof.
  split; cbn [images blocks]; apply insert_subseteq; apply fresh_lookup.
Qed.

(** X2. [from_region] on a region whose coordinate sequences reach the
    indices read returns a new tile of [ni] columns and [nj] rows of zeros
    whose bounds are the first coordinate and the coordinate at the cell
    count of each axis, times [mm_per_unit]; with [mm_per_unit = 1] they are
    these coordinates themselves.  What was in the store before stays. *)
Theorem from_region_bounds region u h x0 x1 y0 y1 z0 z1 :
  X region !! 0%nat = Some x0 -> X region !! ni region = Some x1 ->
  Y region !! 0%nat = Some y0 -> Y region !! nj region = Some y1 ->
  Zs region !! 0%nat = Some z0 -> Zs region !! nk region = Some z1 ->
  exists r i h',
    from_region region u h = (Ok r, h') /\
    images h !! r = None /\ keeps h h' /\
    images h' !! r = Some i /\
    width i = Z.of_nat (ni region) /\ height i = Z.of_nat (nj region) /\
    shape (array i) = (nj region, ni region) /\
    bounds i = [Some (x0 * u)%Q; Some (y0 * u)%Q; Some (z0 * u)%Q;
                Some (x1 * u)%Q; Some (y1 * u)%Q; Some (z1 * u)%Q] /\
    (forall j k, view_cell h' (array i) j k = 0) /\
    (u = 1%Q -> bounds i = [Some x0; Some y0; Some z0;
                            Some x1; Some y1; Some z1]).
Proof.
  intros Ex0 Ex1 Ey0 Ey1 Ez0 Ez1.
  set (n := nj region). set (m := ni region).
  set (l := fresh (dom (blocks h))). set (r := fresh (dom (images h))).
  set (zeros := replicate n (replicate m 0)).
  set (I := mkImage (whole l n m) (Z.of_nat m) (Z.of_nat n)
                    (Some (x0 * u)%Q) (Some (y0 * u)%Q) (Some (z0 * u)%Q)
                    (Some (x1 * u)%Q) (Some (y1 * u)%Q) (Some (z1 * u)%Q)).
  assert (E : from_region region u h =
              (Ok r, mkHeap (<[l := zeros]> (blocks h)) (<[r := I]> (images h)))).
  { unfold from_region.
    assert (Ei : Image_init (Z.of_nat m) (Z.of_nat n) h =
      (Ok r, mkHeap (<[l := zeros]> (blocks h))
                    (<[r := mkImage (whole l n m) (Z.of_nat m) (Z.of_nat n)
                                    None None None None None None]> (images h)))).
    { unfold Image_init, np_zeros.
      replace (Z.of_nat n <? 0) with false by (symmetry; apply Z.ltb_ge; lia).
      replace (Z.of_nat m <? 0) with false by (symmetry; apply Z.ltb_ge; lia).
      cbv [orb bind alloc_block alloc_image ret set_blocks set_images
           blocks images]. rewrite !Nat2Z.id. reflexivity. }
    rewrite (bind_run _ _ _ _ _ Ei).
    rewrite (bounds_step (X region) _ x0 r
               (fun q => with_xmin (Some (q * u)%Q))) by exact Ex0.
    rewrite (bounds_step (X region) _ x1 r
               (fun q => with_xmax (Some (q * u)%Q))) by exact Ex1.
    rewrite (bounds_step (Y region) _ y0 r
               (fun q => with_ymin (Some (q * u)%Q))) by exact Ey0.
    rewrite (bounds_step (Y region) _ y1 r
               (fun q => with_ymax (Some (q * u)%Q))) by exact Ey1.
    rewrite (bounds_step (Zs region) _ z0 r
               (fun q => with_zmin (Some (q * u)%Q))) by exact Ez0.
    rewrite (bounds_step (Zs region) _ z1 r
               (fun q => with_zmax (Some (q * u)%Q))) by exact Ez1.
    reflexivity. }
  exists r, I, (mkHeap (<[l := zeros]> (blocks h)) (<[r := I]> (images h))).
  split; [exact E|]. split; [apply fresh_lookup|].
  split; [apply keeps_fresh_inserts|].
  cbn [images]. rewrite lookup_insert_eq. split; [reflexivity|].
  do 4 (split; [reflexivity|]). split.
  - intros j k. unfold view_cell, block_of. cbn [blocks base array I whole].
    rewrite lookup_insert_eq. apply cell_zeros.
  - intros ->. unfold bounds, I. cbn [xmin ymin zmin xmax ymax zmax].
    rewrite !Qmult_1_r_eq. reflexivity.
Qed.

Lemma from_region_bounds_witness :
  exists r i h',
    from_region Scenario.region 1 Scenario.centre = (Ok r, h') /\
    images h' !! r = Some i /\
    bounds i = [Some 0%Q; Some 10%Q; Some 5%Q; Some 3%Q; Some 12%Q; Some 7%Q].
Proof.
  destruct (from_region_bounds Scenario.region 1 Scenario.centre
              0 3 10 12 5 7 eq_refl eq_refl eq_refl eq_refl eq_refl eq_refl)
    as (r & i & h' & E & _ & _ & Ei & _ & _ & _ & _ & _ & Hb).
  exists r, i, h'. split; [exact E|]. split; [exact Ei|]. apply Hb. reflexivity.
Defined.

(** ** The preview buffer *)

Lemma length_concat_uniform {A} (l : list (list A)) m :
  (forall row, In row l -> length row = m) ->
  length (concat l) = (length l * m)%nat.
Proof.
  induction l as [|row l IH]; intros H; [reflexivity|].
  cbn [concat length]. rewrite length_app, (H row) by (left; reflexivity).
  rewrite IH by (intros r Hr; apply H; right; exact Hr). lia.
Qed.

Lemma nth_concat_uniform {A} (d : A) (l : list (list A)) m j i :
  (forall row, In row l -> length row = m) ->
  (i < m)%nat ->
  nth (j * m + i) (concat l) d = nth i (nth j l []) d.
Proof.
  revert j. induction l as [|row l IH]; intros j H Hi.
  - destruct j; cbn [concat nth]; destruct (_ + _)%nat, i; reflexivity.
  - assert (Hrow : length row = m) by (apply H; left; reflexivity).
    assert (Hl : forall r, In r l -> length r = m)
      by (intros r Hr; apply H; right; exact Hr).
    cbn [concat]. destruct j as [|j].
    + cbn [nth Nat.mul Nat.add]. apply app_nth1. lia.
    + rewrite app_nth2 by lia. cbn [nth].
      replace (S j * m + i - length row)%nat with (j * m + i)%nat by lia.
      apply IH; assumption.
Qed.

Lemma In_map_map_length {A B} (f : A -> B) (g : list (list A)) m row :
  (forall r, In r g -> length r = m) ->
  In row (map (map f) g) -> length row = m.
Proof.
  intros H Hin. apply in_map_iff in Hin as (r & <- & Hr).
  rewrite length_map. apply H. exact Hr.
Qed.

Lemma In_tabulate_length {A} n m (f : nat -> nat -> A) row :
  In row (tabulate n m f) -> length row = m.
Proof.
  unfold tabulate. intros Hin. apply in_map_iff in Hin as (r & <- & _).
  rewrite length_map, length_seq. reflexivity.
Qed.

Lemma nth_map_map {A B} (f : A -> B) (g : list (list A)) j i dA dB :
  (j < length g)%nat -> (i < length (nth j g []))%nat ->
  nth i (nth j (map (map f) g) []) dB = f (nth i (nth j g []) dA).
Proof.
  intros Hj Hi.
  change (@nil B) with (map f []). rewrite (map_nth (map f)).
  rewrite (nth_indep _ dB (f dA)) by (rewrite length_map; exact Hi).
  apply (map_nth f).
Qed.

(** The row [j] of the row-reversed contents of an array. *)
Lemma nth_rev_contents h a j :
  (j < nrows a)%nat ->
  nth j (rev (contents h a)) []
  = map (fun c => view_cell h a (nrows a - 1 - j) c) (seq 0 (ncols a)).
Proof.
  intros Hj. unfold contents.
  rewrite rev_nth by (rewrite length_tabulate; exact Hj).
  rewrite length_tabulate. unfold tabulate.
  rewrite nth_map_seq by lia.
  replace (nrows a - S j)%nat with (nrows a - 1 - j)%nat by lia. reflexivity.
Qed.

(** X3. [to_QImage] hands the toolkit a buffer of four bytes per cell,
    the rows of the array in reverse order and each row from left to
    right: three times the cell shifted right by 8 bits, then 255.  For a
    cell in the 16-bit range that byte is the cell divided by 256.  The
    width and height passed are those of the array and the store is not
    changed. *)
Theorem to_QImage_pixels self h me :
  images h !! self = Some me ->
  let a := array me in
  exists px,
    to_QImage self h = (Ok (px, ncols a, nrows a), h) /\
    length px = (4 * (nrows a * ncols a))%nat /\
    forall j i, (j < nrows a)%nat -> (i < ncols a)%nat ->
      let x := view_cell h a (nrows a - 1 - j) i in
      let v := to_uint8 (Z.shiftr x 8) in
      let k := (4 * (j * ncols a + i))%nat in
      nth k px 0 = v /\ nth (k + 1) px 0 = v /\ nth (k + 2) px 0 = v /\
      nth (k + 3) px 0 = 255 /\
      (0 <= x < 65536 -> v = x / 256 /\ 0 <= v < 256).
Proof.
  intros E a. eexists. split.
  { unfold to_QImage. rewrite (bind_run _ _ _ _ _ (get_image_run _ _ _ E)).
    cbv [bind get_heap ret]. fold a. reflexivity. }
  set (f := fun v => to_uint8 (Z.shiftr v 8)).
  set (q := fun v : Z => [v; v; v; to_uint8 (1 * 255)]).
  set (scaled := map (map f) (rev (contents h a))).
  assert (Lc : forall row, In row (rev (contents h a)) -> length row = ncols a).
  { intros row Hin. apply in_rev in Hin. eapply In_tabulate_length. exact Hin. }
  assert (Ls : forall row, In row scaled -> length row = ncols a)
    by (intros row; apply In_map_map_length; exact Lc).
  assert (Lr : forall row, In row (map (map q) scaled) -> length row = ncols a)
    by (intros row; apply In_map_map_length; exact Ls).
  assert (Lq : forall quad, In quad (concat (map (map q) scaled)) ->
                            length quad = 4%nat).
  { intros quad Hin. apply in_concat in Hin as (row & Hrow & Hq).
    apply in_map_iff in Hrow as (r & <- & _).
    apply in_map_iff in Hq as (v & <- & _). reflexivity. }
  assert (Ln : length scaled = nrows a).
  { unfold scaled. rewrite length_map, length_rev. apply length_tabulate. }
  split.
  { rewrite (length_concat_uniform _ 4%nat Lq).
    rewrite (length_concat_uniform _ (ncols a) Lr).
    rewrite length_map, Ln. lia. }
  intros j i Hj Hi x v k.
  assert (Eq : nth (j * ncols a + i) (concat (map (map q) scaled)) [] = q v).
  { rewrite (nth_concat_uniform _ _ (ncols a) j i Lr Hi).
    assert (Hrow : nth j scaled [] = map f
              (map (fun c => view_cell h a (nrows a - 1 - j) c) (seq 0 (ncols a)))).
    { unfold scaled. change (@nil Z) with (map f []).
      rewrite (map_nth (map f)). rewrite nth_rev_contents by exact Hj.
      reflexivity. }
    rewrite (nth_map_map q scaled j i 0)
      by (rewrite ?Ln, ?Hrow, ?length_map, ?length_seq; assumption).
    rewrite Hrow. f_equal.
    rewrite (nth_indep _ 0 (f 0)) by (rewrite !length_map, length_seq; exact Hi).
    rewrite (map_nth f). rewrite nth_map_seq by exact Hi. reflexivity. }
  assert (Ek : forall c, (c < 4)%nat ->
             nth (k + c) (concat (concat (map (map q) scaled))) 0
             = nth c (q v) 0).
  { intros c Hc. subst k.
    replace (4 * (j * ncols a + i) + c)%nat
      with ((j * ncols a + i) * 4 + c)%nat by lia.
    rewrite (nth_concat_uniform _ _ 4%nat _ c Lq Hc). rewrite Eq. reflexivity. }
  split; [rewrite <- (Nat.add_0_r k); apply (Ek 0%nat); lia|].
  split; [apply (Ek 1%nat); lia|].
  split; [apply (Ek 2%nat); lia|].
  split; [apply (Ek 3%nat); lia|].
  intros Hx. subst v. unfold to_uint8. rewrite Z.shiftr_div_pow2 by lia.
  change (2 ^ 8) with 256.
  assert (Hd : 0 <= x / 256 < 256).
  { split; [apply Z.div_pos; lia|apply Z.div_lt_upper_bound; lia]. }
  rewrite Z.mod_small by exact Hd. split; [reflexivity|exact Hd].
Qed.

Lemma to_QImage_pixels_witness :
  exists px,
    to_QImage 0%nat Scenario.window_tile = (Ok (px, 2%nat, 2%nat),
                                            Scenario.window_tile) /\
    length px = 16%nat /\ nth 0 px 0 = 6 /\ nth 3 px 0 = 255.
Proof.
  destruct (to_QImage_pixels 0%nat Scenario.window_tile
              (mkImage (mkArr 0 0 2 1 2) 2 2 (Some 0%Q) (Some 0%Q) (Some 0%Q)
                       (Some 2%Q) (Some 2%Q) (Some 10%Q)) eq_refl)
    as (px & E & Hl & Hc).
  exists px. split; [exact E|]. split; [exact Hl|].
  destruct (Hc 0%nat 0%nat) as (H0 & _ & _ & H3 & _); [simpl; lia|simpl; lia|].
  split; [exact H0|exact H3].
Defined.

(** ** The row pointers *)

Lemma pixels_run self flip_y h me :
  images h !! self = Some me -> 0 <= height me ->
  let a := array me in
  let flag := c_contiguous (length (hd [] (block_of h (base a)))) a in
  let a' := if flag then a
            else whole (fresh (dom (blocks h))) (nrows a) (ncols a) in
  let h' := if flag then h
            else mkHeap (<[fresh (dom (blocks h)) := contents h a]> (blocks h))
                        (<[self := with_array a' me]> (images h)) in
  let rows := map (fun j => (base a', (row0 a' + j)%nat, col0 a'))
                  (seq 0 (Z.to_nat (height me))) in
  pixels self flip_y h = (Ok (if flip_y then rows else rev rows), h').
Proof.
  intros E Hh a flag a' h' rows. unfold pixels.
  rewrite (bind_run _ _ _ _ _ (get_image_run _ _ _ E)).
  unfold bind at 1. unfold get_heap at 1. fold a. fold flag.
  subst rows h' a'. destruct flag.
  - unfold bind, ret, get_image. rewrite E.
    replace (height me <? 0) with false by (symmetry; apply Z.ltb_ge; exact Hh).
    reflexivity.
  - unfold np_array, alloc_block, bind, ret, update_image, get_image.
    cbn [images set_blocks set_images blocks]. rewrite E.
    unfold set_images. cbn [images blocks].
    rewrite (lookup_insert_eq (images h)). cbn [images blocks height with_array].
    replace (height me <? 0) with false by (symmetry; apply Z.ltb_ge; exact Hh).
    reflexivity.
Qed.

Lemma tabulate_ext {A} n m (f g : nat -> nat -> A) :
  (forall j i, (j < n)%nat -> (i < m)%nat -> f j i = g j i) ->
  tabulate n m f = tabulate n m g.
Proof.
  intros H. unfold tabulate. apply map_ext_in. intros j Hj.
  apply in_seq in Hj. apply map_ext_in. intros i Hi. apply in_seq in Hi.
  apply H; lia.
Qed.

(** An array made of the contents of another reads as that one. *)
Lemma contents_rematerialised h a l bl im :
  contents (mkHeap (<[l := contents h a]> bl) im) (whole l (nrows a) (ncols a))
  = contents h a.
Proof.
  unfold contents at 1. cbn [nrows ncols whole]. unfold contents at 2.
  apply tabulate_ext. intros j i Hj Hi.
  unfold view_cell at 1, block_of. cbn [blocks base row0 col0 whole].
  rewrite lookup_insert_eq. cbn [default from_option id]. rewrite !Nat.add_0_l.
  unfold contents. apply cell_tabulate; assumption.
Qed.

Lemma rev_lookup {A} (l : list A) j :
  (j < length l)%nat -> rev l !! j = l !! (length l - S j)%nat.
Proof.
  intros Hj.
  destruct (lookup_lt_is_Some_2 (rev l) j) as [x Ex];
    [rewrite length_rev; exact Hj|].
  destruct (lookup_lt_is_Some_2 l (length l - S j)%nat) as [y Ey]; [lia|].
  rewrite Ex, Ey. f_equal.
  rewrite <- (nth_lookup_Some _ _ x _ Ex), <- (nth_lookup_Some _ _ x _ Ey).
  apply rev_nth. exact Hj.
Qed.

(** X4. [pixels] on a tile of nonnegative height returns one pointer per
    unit of height.  With [flip_y] the pointer at index [j] is the start of
    row [j] of the tile's array; without it the list is the same in
    reverse order, so that index [j] holds row [height - 1 - j].  Both
    calls leave the same store. *)
Theorem pixels_row_order self h me :
  images h !! self = Some me -> 0 <= height me ->
  exists ps h' me',
    pixels self true h = (Ok ps, h') /\
    pixels self false h = (Ok (rev ps), h') /\
    images h' !! self = Some me' /\
    length ps = Z.to_nat (height me) /\
    forall j, (j < Z.to_nat (height me))%nat ->
      let a' := array me' in
      ps !! j = Some (base a', (row0 a' + j)%nat, col0 a') /\
      rev ps !! j
      = Some (base a', (row0 a' + (Z.to_nat (height me) - 1 - j))%nat, col0 a').
Proof.
  intros E Hh.
  pose proof (pixels_run self true h me E Hh) as Rt.
  pose proof (pixels_run self false h me E Hh) as Rf.
  cbv zeta in Rt, Rf.
  set (a := array me) in *.
  set (flag := c_contiguous (length (hd [] (block_of h (base a)))) a) in *.
  set (a' := if flag then a
             else whole (fresh (dom (blocks h))) (nrows a) (ncols a)) in *.
  set (n := Z.to_nat (height me)) in *.
  set (rows := map (fun j => (base a', (row0 a' + j)%nat, col0 a')) (seq 0 n)) in *.
  assert (Hrow : forall j, (j < n)%nat ->
            rows !! j = Some (base a', (row0 a' + j)%nat, col0 a')).
  { intros j Hj. subst rows. rewrite list_lookup_fmap.
    rewrite lookup_seq_lt by exact Hj. reflexivity. }
  assert (Hlen : length rows = n)
    by (subst rows; rewrite length_map, length_seq; reflexivity).
  eexists rows, _, (if flag then me else with_array a' me).
  split; [exact Rt|]. split; [exact Rf|]. split.
  { destruct flag; [exact E|]. cbn [images]. apply lookup_insert_eq. }
  split; [exact Hlen|].
  intros j Hj.
  assert (Ea : array (if flag then me else with_array a' me) = a').
  { subst a'. destruct flag; reflexivity. }
  cbv zeta. rewrite Ea. split; [apply Hrow; exact Hj|].
  rewrite rev_lookup by (rewrite Hlen; exact Hj).
  rewrite Hlen. replace (n - S j)%nat with (n - 1 - j)%nat by lia.
  apply Hrow. lia.
Qed.

Lemma pixels_row_order_witness :
  exists ps h',
    pixels 0%nat true Scenario.window_tile = (Ok ps, h') /\
    pixels 0%nat false Scenario.window_tile = (Ok (rev ps), h') /\
    length ps = 2%nat.
Proof.
  destruct (pixels_row_order 0%nat Scenario.window_tile
              (mkImage (mkArr 0 0 2 1 2) 2 2 (Some 0%Q) (Some 0%Q) (Some 0%Q)
                       (Some 2%Q) (Some 2%Q) (Some 10%Q)) eq_refl)
    as (ps & h' & me' & Et & Ef & _ & Hl & _); [simpl; lia|].
  exists ps, h'. auto.
Defined.

Lemma c_contiguous_rematerialised h a l :
  c_contiguous (length (hd [] (contents h a))) (whole l (nrows a) (ncols a))
  = true.
Proof.
  unfold c_contiguous, contents, tabulate. cbn [nrows ncols whole].
  destruct (nrows a) as [|n]; [reflexivity|].
  cbn [seq map hd]. rewrite length_map, length_seq, Nat.eqb_refl.
  rewrite !orb_true_r. reflexivity.
Qed.

(** X5. [pixels] changes how the grid of a tile is stored, not the tile:
    after the call the tile has its width, height, bounds and array shape
    and its grid reads cell for cell as before; the blocks that existed
    and the other images are as before.  The array is contiguous
    afterwards, so that a further call of [pixels] leaves the store as it
    is. *)
Theorem pixels_keeps_contents self flip_y h me :
  images h !! self = Some me -> 0 <= height me ->
  exists ps h' me',
    pixels self flip_y h = (Ok ps, h') /\
    images h' !! self = Some me' /\
    width me' = width me /\ height me' = height me /\
    bounds me' = bounds me /\ shape (array me') = shape (array me) /\
    contents h' (array me') = contents h (array me) /\
    blocks h ⊆ blocks h' /\
    (forall r, r <> self -> images h' !! r = images h !! r) /\
    forall f, snd (pixels self f h') = h'.
Proof.
  intros E Hh.
  pose proof (pixels_run self flip_y h me E Hh) as R. cbv zeta in R.
  set (a := array me) in *.
  destruct (c_contiguous (length (hd [] (block_of h (base a)))) a) eqn:Fl.
  - eexists _, h, me. split; [exact R|]. split; [exact E|].
    do 6 (split; [reflexivity|]). split; [reflexivity|].
    intros f. pose proof (pixels_run self f h me E Hh) as R'. cbv zeta in R'.
    fold a in R'. rewrite Fl in R'. rewrite R'. reflexivity.
  - set (l := fresh (dom (blocks h))) in *.
    set (a' := whole l (nrows a) (ncols a)) in *.
    set (h' := mkHeap (<[l := contents h a]> (blocks h))
                      (<[self := with_array a' me]> (images h))) in *.
    assert (E' : images h' !! self = Some (with_array a' me))
      by (subst h'; cbn [images]; apply lookup_insert_eq).
    eexists _, h', (with_array a' me). split; [exact R|]. split; [exact E'|].
    do 4 (split; [reflexivity|]). split.
    { subst h' a'. cbn [array with_array]. apply contents_rematerialised. }
    split.
    { subst h'. cbn [blocks]. apply insert_subseteq. apply fresh_lookup. }
    split.
    { intros r N. subst h'. cbn [images]. apply lookup_insert_ne. auto. }
    intros f.
    pose proof (pixels_run self f h' (with_array a' me) E' Hh) as R'.
    cbv zeta in R'. cbn [array with_array] in R'.
    assert (Fl' : c_contiguous (length (hd [] (block_of h' (base a')))) a' = true).
    { subst h' a'. unfold block_of. cbn [blocks base whole].
      rewrite lookup_insert_eq. cbn [default from_option id].
      apply c_contiguous_rematerialised. }
    rewrite Fl' in R'. rewrite R'. reflexivity.
Qed.

Lemma pixels_keeps_contents_witness :
  exists ps h' me',
    pixels 0%nat true Scenario.window_tile = (Ok ps, h') /\
    images h' !! 0%nat = Some me' /\
    contents h' (array me') = [ [512; 768]; [1536; 1792] ] /\
    h' <> Scenario.window_tile /\
    snd (pixels 0%nat true h') = h'.
Proof.
  destruct (pixels_keeps_contents 0%nat true Scenario.window_tile
              (mkImage (mkArr 0 0 2 1 2) 2 2 (Some 0%Q) (Some 0%Q) (Some 0%Q)
                       (Some 2%Q) (Some 2%Q) (Some 10%Q)) eq_refl)
    as (ps & h' & me' & E & Ei & _ & _ & _ & _ & Ec & _ & _ & Hs);
    [simpl; lia|].
  exists ps, h', me'. split; [exact E|]. split; [exact Ei|].
  split; [rewrite Ec; vm_compute; reflexivity|].
  split; [|apply Hs].
  intros ->. vm_compute in Ei. injection Ei as <-.
  vm_compute in E. discriminate E.
Defined.

(** ** save *)

(** X6. [save] builds the array of the six bounds before it asks for the
    row pointers: on a tile with a bound unset it raises [TypeError] and
    leaves the store as it is; on a tile with all six bounds set it does
    what [pixels] with [flip_y=True] does. *)
Theorem save_needs_bounds self h me :
  images h !! self = Some me ->
  (In None (bounds me) -> save self h = (Raise TypeError, h)) /\
  ((forall b, In b (bounds me) -> is_Some b) ->
   save self h = pixels self true h).
Proof.
  intros E. unfold save. rewrite (bind_run _ _ _ _ _ (get_image_run _ _ _ E)).
  unfold bounds. split.
  - intros Hin. unfold bind, num, ret, raise.
    destruct (xmin me); [|reflexivity]. destruct (ymin me); [|reflexivity].
    destruct (zmin me); [|reflexivity]. destruct (xmax me); [|reflexivity].
    destruct (ymax me); [|reflexivity]. destruct (zmax me); [|reflexivity].
    exfalso. cbn [In] in Hin. intuition discriminate.
  - intros Hall. unfold bind at 1 2 3 4 5 6. unfold num, ret, raise.
    destruct (xmin me) as [?|] eqn:E1;
      [|destruct (Hall None) as [? [=]]; cbn [In]; auto].
    destruct (ymin me) as [?|] eqn:E2;
      [|destruct (Hall None) as [? [=]]; cbn [In]; auto].
    destruct (zmin me) as [?|] eqn:E3;
      [|destruct (Hall None) as [? [=]]; cbn [In]; auto].
    destruct (xmax me) as [?|] eqn:E4;
      [|destruct (Hall None) as [? [=]]; cbn [In]; auto].
    destruct (ymax me) as [?|] eqn:E5;
      [|destruct (Hall None) as [? [=]]; cbn [In]; auto 7].
    destruct (zmax me) as [?|] eqn:E6;
      [|destruct (Hall None) as [? [=]]; cbn [In]; auto 8].
    reflexivity.
Qed.

Lemma save_needs_bounds_witness :
  let h1 := snd (Image_init 3 2 Scenario.centre) in
  save 2%nat h1 = (Raise TypeError, h1).
Proof.
  intros h1.
  refine (proj1 (save_needs_bounds 2%nat h1
                   (mkImage (whole 2 2 3) 3 2 None None None None None None)
                   _) _).
  - vm_compute. reflexivity.
  - left. reflexivity.
Defined.

(** ** blit_onto: what stops a call *)

Lemma z_scale_ok s t h S T a b c :
  images h !! s = Some S -> images h !! t = Some T ->
  zmax S = Some a -> zmin T = Some b -> zmax T = Some c ->
  exists zs, z_scale s t h = (Ok zs, h).
Proof.
  intros ES ET Ea Eb Ec. unfold z_scale, try_zde.
  rewrite (bind_run _ _ _ _ _ (get_image_run _ _ _ ES)).
  rewrite (bind_run _ _ _ _ _ (get_image_run _ _ _ ET)).
  rewrite Ea, Eb, Ec. cbv [py_sub num bind ret py_div raise].
  destruct (Qeq_bool (c - b) 0); eauto.
Qed.

(** X7. The [try] of lines 77-81 catches the division by zero only: when
    [source.zmax], [target.zmin] or [target.zmax] is unset the call raises
    [TypeError], and the store is as before. *)
Theorem blit_onto_unset_z s t h S T :
  images h !! s = Some S -> images h !! t = Some T ->
  zmax S = None \/ zmin T = None \/ zmax T = None ->
  blit_onto s t h = (Raise TypeError, h).
Proof.
  intros ES ET Hn.
  assert (Ez : z_scale s t h = (Raise TypeError, h)).
  { unfold z_scale, try_zde.
    rewrite (bind_run _ _ _ _ _ (get_image_run _ _ _ ES)).
    rewrite (bind_run _ _ _ _ _ (get_image_run _ _ _ ET)).
    cbv [py_sub num bind ret py_div raise].
    destruct (zmax S), (zmin T), (zmax T);
      try reflexivity; exfalso; intuition discriminate. }
  unfold blit_onto, prepare, bind. rewrite Ez. reflexivity.
Qed.

Lemma blit_onto_unset_z_witness :
  let h1 := snd (Image_init 2 2 Scenario.centre) in
  blit_onto 2%nat Scenario.target h1 = (Raise TypeError, h1).
Proof.
  intros h1.
  refine (blit_onto_unset_z 2%nat Scenario.target h1
            (mkImage (whole 2 2 2) 2 2 None None None None None None)
            (Scenario.tile 0 4 4 0 4 0 4 0 10) _ _ _).
  - vm_compute. reflexivity.
  - vm_compute. reflexivity.
  - left. reflexivity.
Defined.

(** X8. The divisions of lines 83-87 are not guarded.  With the bounds
    read before them set, a target of zero extent in y, a source of zero
    extent in y and a source without rows each make the call raise
    [ZeroDivisionError]; the store is as before. *)
Theorem blit_onto_zero_extent s t h S T a b c ty0 ty1 sy0 sy1 :
  images h !! s = Some S -> images h !! t = Some T ->
  zmax S = Some a -> zmin T = Some b -> zmax T = Some c ->
  ymin T = Some ty0 -> ymax T = Some ty1 ->
  ymin S = Some sy0 -> ymax S = Some sy1 ->
  (ty1 - ty0 == 0)%Q \/ (sy1 - sy0 == 0)%Q \/ height S = 0 ->
  blit_onto s t h = (Raise ZeroDivisionError, h).
Proof.
  intros ES ET Ea Eb Ec Et0 Et1 Es0 Es1 Hz.
  destruct (z_scale_ok s t h S T a b c ES ET Ea Eb Ec) as [zs Ez].
  assert (Ep : pixel_scale s t h = (Raise ZeroDivisionError, h)).
  { unfold pixel_scale.
    rewrite (bind_run _ _ _ _ _ (get_image_run _ _ _ ES)).
    rewrite (bind_run _ _ _ _ _ (get_image_run _ _ _ ET)).
    rewrite Et0, Et1, Es0, Es1.
    cbv [density_ratio py_sub num bind ret py_div raise].
    destruct (Qeq_bool (ty1 - ty0) 0) eqn:Dt; [reflexivity|].
    destruct (Qeq_bool (sy1 - sy0) 0) eqn:Ds; [reflexivity|].
    destruct Hz as [Hz|[Hz|Hz]].
    - apply Qeq_bool_iff in Hz. congruence.
    - apply Qeq_bool_iff in Hz. congruence.
    - replace (Qeq_bool (qz (height S) / (sy1 - sy0)) 0) with true;
        [reflexivity|].
      symmetry. apply Qeq_bool_iff. rewrite Hz. unfold qz, Qdiv.
      apply Qmult_0_l. }
  unfold blit_onto, prepare, bind. rewrite Ez, Ep. reflexivity.
Qed.

Lemma blit_onto_zero_extent_witness :
  let h := Scenario.two_tiles
             (replicate 4 (replicate 4 0)) (Scenario.tile 0 4 4 0 4 0 4 0 10)
             [] (Scenario.tile 1 0 2 1 3 1 3 5 15) in
  blit_onto Scenario.source Scenario.target h = (Raise ZeroDivisionError, h).
Proof.
  intros h.
  refine (blit_onto_zero_extent Scenario.source Scenario.target h
            (Scenario.tile 1 0 2 1 3 1 3 5 15)
            (Scenario.tile 0 4 4 0 4 0 4 0 10)
            15 0 10 0 4 1 3 _ _ _ _ _ _ _ _ _ _);
    try reflexivity.
  right. right. reflexivity.
Defined.

Lemma Qdiv_nonzero (x y : Q) : ~ (x == 0)%Q -> ~ (y == 0)%Q -> ~ (x / y == 0)%Q.
Proof.
  intros Hx Hy H. unfold Qdiv in H. apply Qmult_integral in H as [H|H].
  - exact (Hx H).
  - apply Hy. rewrite <- (Qinv_involutive y), H. reflexivity.
Qed.

Lemma qz_nonzero n : n <> 0 -> ~ (qz n == 0)%Q.
Proof.
  intros Hn H. apply Hn. unfold qz, Qeq, inject_Z in H.
  cbn [Qnum Qden] in H. lia.
Qed.

Lemma Qeq_bool_false x y : ~ (x == y)%Q -> Qeq_bool x y = false.
Proof.
  intros H. apply not_true_is_false. intros E. apply Qeq_bool_iff in E. auto.
Qed.

Lemma density_ratio_run tn t0 t1 sn s0 s1 h :
  ~ (t1 - t0 == 0)%Q -> ~ (s1 - s0 == 0)%Q -> sn <> 0 ->
  density_ratio tn (Some t0) (Some t1) sn (Some s0) (Some s1) h
  = (Ok ((qz tn / (t1 - t0)) / (qz sn / (s1 - s0)))%Q, h).
Proof.
  intros Ht Hs Hn. cbv [density_ratio py_sub num bind ret py_div raise].
  rewrite (Qeq_bool_false _ _ Ht), (Qeq_bool_false _ _ Hs).
  rewrite (Qeq_bool_false _ _ (Qdiv_nonzero _ _ (qz_nonzero _ Hn) Hs)).
  reflexivity.
Qed.

(** X9. A target without rows or without columns: with the bounds set,
    no extent zero and a source that has rows and columns, the ratio of its
    axis is zero, and the call returns [None] and leaves the store as it
    is. *)
Theorem blit_onto_empty_target s t h S T a b c tx0 tx1 ty0 ty1 sx0 sx1 sy0 sy1 :
  images h !! s = Some S -> images h !! t = Some T ->
  zmax S = Some a -> zmin T = Some b -> zmax T = Some c ->
  xmin T = Some tx0 -> xmax T = Some tx1 ->
  ymin T = Some ty0 -> ymax T = Some ty1 ->
  xmin S = Some sx0 -> xmax S = Some sx1 ->
  ymin S = Some sy0 -> ymax S = Some sy1 ->
  ~ (tx1 - tx0 == 0)%Q -> ~ (ty1 - ty0 == 0)%Q ->
  ~ (sx1 - sx0 == 0)%Q -> ~ (sy1 - sy0 == 0)%Q ->
  height S <> 0 -> width S <> 0 ->
  height T = 0 \/ width T = 0 ->
  blit_onto s t h = (Ok None, h).
Proof.
  intros ES ET Ea Eb Ec Etx0 Etx1 Ety0 Ety1 Esx0 Esx1 Esy0 Esy1
         Htx Hty Hsx Hsy Hh Hw Hempty.
  destruct (z_scale_ok s t h S T a b c ES ET Ea Eb Ec) as [zs Ez].
  set (r := ((qz (height T) / (ty1 - ty0)) / (qz (height S) / (sy1 - sy0)))%Q).
  set (k := ((qz (width T) / (tx1 - tx0)) / (qz (width S) / (sx1 - sx0)))%Q).
  assert (Ep : pixel_scale s t h = (Ok (r, k), h)).
  { unfold pixel_scale.
    rewrite (bind_run _ _ _ _ _ (get_image_run _ _ _ ES)).
    rewrite (bind_run _ _ _ _ _ (get_image_run _ _ _ ET)).
    rewrite Etx0, Etx1, Ety0, Ety1, Esx0, Esx1, Esy0, Esy1.
    rewrite (bind_run _ _ _ _ _ (density_ratio_run _ _ _ _ _ _ h Hty Hsy Hh)).
    rewrite (bind_run _ _ _ _ _ (density_ratio_run _ _ _ _ _ _ h Htx Hsx Hw)).
    reflexivity. }
  assert (G : Qeq_bool (fst (r, k)) 0 || Qeq_bool (snd (r, k)) 0 = true).
  { cbn [fst snd]. apply orb_true_iff.
    destruct Hempty as [H0|H0]; [left|right]; apply Qeq_bool_iff.
    - subst r. rewrite H0. unfold qz, Qdiv. rewrite !Qmult_0_l. reflexivity.
    - subst k. rewrite H0. unfold qz, Qdiv. rewrite !Qmult_0_l. reflexivity. }
  unfold blit_onto, prepare, bind. rewrite Ez, Ep, G. reflexivity.
Qed.

Lemma blit_onto_empty_target_witness :
  blit_onto Scenario.source Scenario.target Scenario.no_rows
  = (Ok None, Scenario.no_rows).
Proof.
  refine (blit_onto_empty_target Scenario.source Scenario.target
            Scenario.no_rows
            (Scenario.tile 1 2 2 1 3 1 3 5 15)
            (Scenario.tile 0 0 4 0 4 0 4 0 10)
            15 0 10 0 4 0 4 1 3 1 3
            _ _ _ _ _ _ _ _ _ _ _ _ _ _ _ _ _ _ _ _);
    try reflexivity; try (intros H; discriminate H).
  left. reflexivity.
Defined.

(** ** blit_onto: the reach of a call *)

Lemma write_window_fits a f g n m :
  (n <=? length g)%nat && forallb (fun row => (m <=? length row)%nat) g = true ->
  (n <=? length (write_window a f g))%nat &&
  forallb (fun row => (m <=? length row)%nat) (write_window a f g) = true.
Proof.
  intros H. apply andb_true_iff in H as [Hn Hm]. apply andb_true_iff.
  unfold write_window. split.
  - rewrite length_imap. exact Hn.
  - rewrite forallb_forall in Hm. apply forallb_forall. intros row Hin.
    apply list_elem_of_In, list_elem_of_lookup in Hin as [r Hr].
    rewrite list_lookup_imap in Hr.
    destruct (g !! r) as [row0|] eqn:Er; [|discriminate].
    cbn [fmap option_fmap option_map] in Hr. injection Hr as <-.
    rewrite length_imap. apply Hm.
    apply list_elem_of_In. eapply list_elem_of_lookup_2. exact Er.
Qed.

(** X10. Whether it returns or raises, [blit_onto] leaves every image of
    the store as it was (the target's width, height, bounds and array
    reference included), writes to no block but the one behind the target's
    array, and keeps the size of that block: an array on another block
    reads as before, and the target's array still lies inside its block. *)
Theorem blit_onto_writes_target_block s t h T :
  images h !! t = Some T ->
  let h' := snd (blit_onto s t h) in
  (forall r i, images h !! r = Some i -> images h' !! r = Some i) /\
  (forall l g, l <> base (array T) ->
               blocks h !! l = Some g -> blocks h' !! l = Some g) /\
  (forall a g, base a <> base (array T) -> blocks h !! base a = Some g ->
               contents h' a = contents h a) /\
  (fits h (array T) = true -> fits h' (array T) = true).
Proof.
  intros ET h'. subst h'. split; [|split; [|split]].
  - intros r i E. eapply lookup_weaken; [exact E|apply blit_onto_images].
  - intros l g N E. exact (blit_onto_blocks s t h T l g ET N E).
  - intros a g N E. apply contents_block.
    rewrite (blit_onto_blocks s t h T _ g ET N E), E. reflexivity.
  - intros Hf.
    pose proof (prepare_keeps s t h) as K.
    assert (Hk : forall h1, keeps h h1 -> fits h1 (array T) = true).
    { intros h1 K1. unfold fits in *.
      destruct (blocks h !! base (array T)) as [g|] eqn:Eg; [|discriminate].
      rewrite (keeps_block _ _ _ _ K1 Eg). exact Hf. }
    unfold blit_onto, bind.
    destruct (prepare s t h) as [[[[sub a]|]|e] h1] eqn:Ep; simpl in *;
      try (apply Hk; exact K).
    destruct (prepare_window s t h T sub a h1 ET Ep) as ((Eb & _) & _ & _).
    unfold copyto_greater. destruct (decide _); simpl; [|apply Hk; exact K].
    specialize (Hk h1 K). unfold fits in *. cbn [blocks set_blocks].
    rewrite Eb, lookup_alter_eq.
    destruct (blocks h1 !! base (array T)) as [g|]; [|discriminate].
    cbn [fmap option_fmap option_map]. apply write_window_fits. exact Hk.
Qed.

Lemma blit_onto_writes_target_block_witness :
  let h' := snd (blit_onto Scenario.source Scenario.target Scenario.centre) in
  images h' !! Scenario.source = Some (Scenario.tile 1 2 2 1 3 1 3 5 15) /\
  fits h' (whole 0 4 4) = true.
Proof.
  intros h'.
  destruct (blit_onto_writes_target_block Scenario.source Scenario.target
              Scenario.centre (Scenario.tile 0 4 4 0 4 0 4 0 10) eq_refl)
    as (Hi & _ & _ & Hf).
  split.
  - apply Hi. reflexivity.
  - apply Hf. reflexivity.
Defined.

(** X11. Once the stages before the merge have gone through, the merge
    does not raise: the window of the target and the source array clipped
    to it always have one shape, and the call returns the target. *)
Theorem merge_never_raises s t h T p h1 :
  images h !! t = Some T ->
  prepare s t h = (Ok (Some p), h1) ->
  exists h2, blit_onto s t h = (Ok (Some t), h2).
Proof.
  intros ET Ep. destruct p as [sub a].
  destruct (prepare_window s t h T sub a h1 ET Ep) as (_ & Sh & _).
  destruct (copyto_greater_run sub a h1 Sh) as [h2 Ec].
  exists h2. unfold blit_onto, bind. rewrite Ep, Ec. reflexivity.
Qed.

Lemma merge_never_raises_witness :
  exists h2, blit_onto Scenario.source Scenario.target Scenario.upper_half
             = (Ok (Some Scenario.target), h2).
Proof.
  assert (E : exists p h1, prepare Scenario.source Scenario.target
                             Scenario.upper_half = (Ok (Some p), h1))
    by (eexists; eexists; vm_compute; reflexivity).
  destruct E as (p & h1 & E).
  exact (merge_never_raises Scenario.source Scenario.target
           Scenario.upper_half (Scenario.tile 0 1 4 0 4 1 2 0 10) p h1
           eq_refl E).
Defined.

(** ** blit_onto: the values merged *)

Lemma cell_tabulate_cases {A} (d : A) n m f r c :
  cell d (tabulate n m f) r c
  = if (r <? n)%nat && (c <? m)%nat then f r c else d.
Proof.
  destruct (r <? n)%nat eqn:Hr; [apply Nat.ltb_lt in Hr|apply Nat.ltb_ge in Hr].
  - destruct (c <? m)%nat eqn:Hc;
      [apply Nat.ltb_lt in Hc|apply Nat.ltb_ge in Hc]; cbn [andb].
    + apply cell_tabulate; assumption.
    + unfold cell, tabulate. rewrite nth_map_seq by exact Hr.
      apply nth_overflow. rewrite length_map, length_seq. exact Hc.
  - cbn [andb]. unfold cell, tabulate.
    rewrite (nth_overflow (map _ (seq 0 n)))
      by (rewrite length_map, length_seq; exact Hr).
    destruct c; reflexivity.
Qed.

(** What [zoom] returns is a grid of unsigned 16-bit integers. *)
Lemma zoom_uint16 input n m n' m' : uint16_grid (zoom_cells input n m n' m').
Proof.
  intros r c. unfold zoom_cells. rewrite cell_tabulate_cases.
  destruct (_ && _); [|lia].
  apply to_uint16_range.
Qed.

Section OnBlock.
Variables (c t l : loc) (B : gmap nat (list (list Z))).

Lemma on_block_get {A} (k : Image -> M A) :
  (forall s, base (array s) = l -> stable (on_block c l B) (k s)) ->
  stable (on_block c l B) (bind (get_image c) k).
Proof.
  intros Hk h HJ. pose proof HJ as (_ & S & ES & Hb).
  unfold bind, get_image. rewrite ES. apply Hk; assumption.
Qed.

Lemma on_block_set_array a :
  base a = l -> stable (on_block c l B) (update_image c (with_array a)).
Proof.
  intros Ha h (HB & S & ES & Hb). unfold update_image. rewrite ES.
  split; [exact HB|]. eexists. split; [cbn; apply lookup_insert_eq|exact Ha].
Qed.

Lemma on_block_set_attr f :
  (forall i, array (f i) = array i) ->
  stable (on_block c l B) (update_image c f).
Proof.
  intros Hf h (HB & S & ES & Hb). unfold update_image. rewrite ES.
  split; [exact HB|]. eexists. split; [cbn; apply lookup_insert_eq|].
  rewrite Hf. exact Hb.
Qed.

Ltac on_block_steps :=
  cbv zeta;
  repeat first
    [ apply stable_ret | apply stable_raise
    | apply on_block_get; intros ? ?
    | apply stable_get_image
    | apply stable_py_gt | apply stable_edge_index
    | apply on_block_set_array; cbn [base cols_view rows_view]; assumption
    | apply on_block_set_attr; intros ?; reflexivity
    | apply stable_bind; [|intros ?]
    | match goal with
      | |- stable _ (if ?b then _ else _) => destruct b
      end ].

(** The trims reslice the array of the copy; they allocate nothing and
    leave the array on its block. *)
Lemma on_block_trim : stable (on_block c l B) (trim c t).
Proof.
  unfold trim, trim_xmin, trim_xmax, trim_ymin, trim_ymax, refresh.
  on_block_steps.
Qed.
End OnBlock.

(** The array that is merged lies on the block that [zoom] returned. *)
Lemma prepare_source_uint16 s t h T sub a h1 :
  images h !! t = Some T ->
  prepare s t h = (Ok (Some (sub, a)), h1) ->
  uint16_grid (block_of h1 (base a)).
Proof.
  intros ET E.
  apply prepare_ok in E
    as (zs & scale & c & h2 & h3 & h4 & _ & _ & _ & Ec & Er & Et & Ep).
  apply copy_ok in Ec as (S & ES & Hc & ->).
  assert (Fc : images h !! c = None) by (subst c; apply fresh_lookup).
  assert (N : c <> t) by (intros ->; rewrite ET in Fc; discriminate).
  assert (EcS : images (copy_heap S h) !! c = Some S)
    by (subst c; unfold copy_heap; cbn [images]; apply lookup_insert_eq).
  pose proof (resample_run c zs scale _ S EcS
                (resample_ok _ _ _ _ _ _ _ EcS Er)) as R. cbv zeta in R.
  rewrite R in Er. injection Er as <-.
  set (l := fresh (dom (blocks (copy_heap S h)))) in *.
  set (out := zoom_cells _ _ _ _ _) in *.
  set (B := <[l := out]> (blocks (copy_heap S h))) in *.
  assert (J3 : on_block c l B (mkHeap B
                 (<[c := with_shape
                           (Z.of_nat (zoom_length (nrows (array S)) (fst scale)))
                           (Z.of_nat (zoom_length (ncols (array S)) (snd scale)))
                           (with_array
                              (whole l (zoom_length (nrows (array S)) (fst scale))
                                       (zoom_length (ncols (array S)) (snd scale)))
                              S)]> (images (copy_heap S h))))).
  { split; [reflexivity|]. eexists. split; [cbn; apply lookup_insert_eq|].
    reflexivity. }
  pose proof (stable_run _ _ _ _ _ (on_block_trim c t l B) J3 Et)
    as (HB4 & S4 & ES4 & Hb4).
  pose proof Et as Et'. apply trim_ok in Et' as (S4' & ES4' & Hh & Hw).
  rewrite ES4 in ES4'. injection ES4' as <-.
  assert (ET4 : images h4 !! t = Some T).
  { assert (K2 : keeps h (copy_heap S h)) by apply keeps_fresh_inserts.
    assert (K3 : keeps h (mkHeap B
                 (<[c := with_shape
                           (Z.of_nat (zoom_length (nrows (array S)) (fst scale)))
                           (Z.of_nat (zoom_length (ncols (array S)) (snd scale)))
                           (with_array
                              (whole l (zoom_length (nrows (array S)) (fst scale))
                                       (zoom_length (ncols (array S)) (snd scale)))
                              S)]> (images (copy_heap S h))))).
    { exact (stable_run _ _ _ _ _ (stable_resample h c Fc zs scale) K2 R). }
    exact (keeps_image _ _ _ _
             (stable_run _ _ _ _ _ (stable_trim h c t Fc) K3 Et) ET). }
  destruct (place_ok c t S4 T h4 sub a h1 N ES4 ET4 Hh Hw Ep)
    as (_ & _ & _ & Hbl & Ha).
  unfold block_of. rewrite Hbl, HB4, Ha, Hb4. subst B.
  rewrite lookup_insert_eq. cbn [default from_option id]. apply zoom_uint16.
Qed.

(** X12. Whether it returns or raises, [blit_onto] never lowers a cell of
    the target, and a cell of the target that was in the range of an
    unsigned 16-bit integer is in it afterwards. *)
Theorem blit_onto_never_lowers s t h T :
  images h !! t = Some T ->
  fits h (array T) = true ->
  let h' := snd (blit_onto s t h) in
  forall j i, (j < nrows (array T))%nat -> (i < ncols (array T))%nat ->
    view_cell h (array T) j i <= view_cell h' (array T) j i /\
    (0 <= view_cell h (array T) j i < 65536 ->
     0 <= view_cell h' (array T) j i < 65536).
Proof.
  intros ET Hf h' j i Hj Hi. subst h'.
  pose proof (prepare_keeps s t h) as K.
  assert (Epre : forall h1, keeps h h1 ->
            view_cell h1 (array T) j i = view_cell h (array T) j i).
  { intros h1 K1. unfold view_cell, block_of.
    destruct (blocks h !! base (array T)) as [g|] eqn:Eg.
    - rewrite (keeps_block _ _ _ _ K1 Eg). reflexivity.
    - unfold fits in Hf. rewrite Eg in Hf. discriminate. }
  unfold blit_onto, bind.
  destruct (prepare s t h) as [[[[sub a]|]|e] h1] eqn:Ep;
    cbn [fst snd ret] in *;
    try (rewrite (Epre h1 K); split; [lia|tauto]).
  destruct (prepare_window s t h T sub a h1 ET Ep) as (W & Sh & _).
  destruct (copyto_greater_run sub a h1 Sh) as [h2 Ec]. rewrite Ec.
  cbn [fst snd ret].
  assert (Hf1 : fits h1 (array T) = true).
  { unfold fits in *. destruct (blocks h !! base (array T)) as [g|] eqn:Eg;
      [|discriminate].
    rewrite (keeps_block _ _ _ _ K Eg). exact Hf. }
  rewrite (copyto_greater_cell sub a (array T) h1 h2 j i Ec W Hf1 Hj Hi).
  rewrite (Epre h1 K).
  set (placed := view_cell h1 a _ _).
  assert (Hu : 0 <= placed < 65536).
  { subst placed. unfold view_cell.
    apply (prepare_source_uint16 s t h T sub a h1 ET Ep). }
  destruct (in_window sub _ _); split; lia.
Qed.

Lemma blit_onto_never_lowers_witness :
  let h := Scenario.centre in
  let h' := snd (blit_onto Scenario.source Scenario.target h) in
  view_cell h (whole 0 4 4) 1 1 <= view_cell h' (whole 0 4 4) 1 1 /\
  0 <= view_cell h' (whole 0 4 4) 1 1 < 65536.
Proof.
  intros h h'.
  destruct (blit_onto_never_lowers Scenario.source Scenario.target
              Scenario.centre (Scenario.tile 0 4 4 0 4 0 4 0 10)
              eq_refl eq_refl 1%nat 1%nat) as [Hle Hr].
  - cbn. lia.
  - cbn. lia.
  - split; [exact Hle|]. apply Hr.
    vm_compute. split; [intros H; discriminate H|reflexivity].
Defined.

(** ** The trims, in general *)

Lemma Qlt_bool_false a b : (b <= a)%Q -> Qlt_bool a b = false.
Proof.
  intros H. unfold Qlt_bool.
  replace (Qle_bool b a) with true by (symmetry; apply Qle_bool_iff; exact H).
  reflexivity.
Qed.

(** X13. Trimming a copy to a target whose bounds contain its own in x and
    in y clips nothing: the call returns, the array and the six bounds of
    the copy are as before, and no block is touched; only height and width
    are set again from the shape of the array. *)
Theorem trim_contained c t h S T sx0 sx1 sy0 sy1 tx0 tx1 ty0 ty1 :
  images h !! c = Some S -> images h !! t = Some T ->
  xmin S = Some sx0 -> xmax S = Some sx1 ->
  ymin S = Some sy0 -> ymax S = Some sy1 ->
  xmin T = Some tx0 -> xmax T = Some tx1 ->
  ymin T = Some ty0 -> ymax T = Some ty1 ->
  (tx0 <= sx0)%Q -> (sx1 <= tx1)%Q -> (ty0 <= sy0)%Q -> (sy1 <= ty1)%Q ->
  exists h' S',
    trim c t h = (Ok tt, h') /\
    images h' !! c = Some S' /\
    array S' = array S /\ bounds S' = bounds S /\
    height S' = Z.of_nat (nrows (array S)) /\
    width S' = Z.of_nat (ncols (array S)) /\
    blocks h' = blocks h.
Proof.
  intros ES ET Esx0 Esx1 Esy0 Esy1 Etx0 Etx1 Ety0 Ety1 Hx0 Hx1 Hy0 Hy1.
  assert (E1 : trim_xmin c t h = (Ok tt, h)).
  { unfold trim_xmin.
    rewrite (bind_run _ _ _ _ _ (get_image_run _ _ _ ES)).
    rewrite (bind_run _ _ _ _ _ (get_image_run _ _ _ ET)).
    rewrite Esx0, Etx0. cbv [py_gt num bind ret].
    rewrite (Qlt_bool_false _ _ Hx0). reflexivity. }
  assert (E2 : trim_xmax c t h = (Ok tt, h)).
  { unfold trim_xmax.
    rewrite (bind_run _ _ _ _ _ (get_image_run _ _ _ ES)).
    rewrite (bind_run _ _ _ _ _ (get_image_run _ _ _ ET)).
    rewrite Esx1, Etx1. cbv [py_gt num bind ret].
    rewrite (Qlt_bool_false _ _ Hx1). reflexivity. }
  assert (E3 : trim_ymin c t h = (Ok tt, h)).
  { unfold trim_ymin.
    rewrite (bind_run _ _ _ _ _ (get_image_run _ _ _ ES)).
    rewrite (bind_run _ _ _ _ _ (get_image_run _ _ _ ET)).
    rewrite Esy0, Ety0. cbv [py_gt num bind ret].
    rewrite (Qlt_bool_false _ _ Hy0). reflexivity. }
  assert (E4 : trim_ymax c t h = (Ok tt, h)).
  { unfold trim_ymax.
    rewrite (bind_run _ _ _ _ _ (get_image_run _ _ _ ES)).
    rewrite (bind_run _ _ _ _ _ (get_image_run _ _ _ ET)).
    rewrite Esy1, Ety1. cbv [py_gt num bind ret].
    rewrite (Qlt_bool_false _ _ Hy1). reflexivity. }
  eexists _, _. split.
  { unfold trim.
    rewrite (bind_run _ _ _ _ _ E1), (bind_run _ _ _ _ _ E2).
    rewrite (bind_run _ _ _ _ _ E3), (bind_run _ _ _ _ _ E4).
    unfold refresh. rewrite (bind_run _ _ _ _ _ (get_image_run _ _ _ ES)).
    apply (update_image_run _ _ _ _ ES). }
  cbn [images set_images blocks]. rewrite lookup_insert_eq.
  split; [reflexivity|]. repeat split; reflexivity.
Qed.

Lemma trim_contained_witness :
  let h1 := snd (Scenario.resampled Scenario.centre) in
  exists h' S',
    trim 2%nat Scenario.target h1 = (Ok tt, h') /\
    images h' !! 2%nat = Some S' /\
    shape (array S') = (2%nat, 2%nat) /\ blocks h' = blocks h1.
Proof.
  intros h1.
  assert (ES : images h1 !! 2%nat
               = Some (mkImage (whole 3 2 2) 2 2
                               (Some 1%Q) (Some 1%Q) (Some 5%Q)
                               (Some 3%Q) (Some 3%Q) (Some 15%Q)))
    by (vm_compute; reflexivity).
  assert (ET : images h1 !! Scenario.target
               = Some (Scenario.tile 0 4 4 0 4 0 4 0 10))
    by (vm_compute; reflexivity).
  assert (Hq : forall a b : Q, Qle_bool a b = true -> (a <= b)%Q)
    by (intros a b; apply Qle_bool_iff).
  pose proof (trim_contained 2%nat Scenario.target h1 _ _
                1 3 1 3 0 4 0 4 ES ET
                eq_refl eq_refl eq_refl eq_refl eq_refl eq_refl eq_refl eq_refl
                (Hq 0%Q 1%Q eq_refl) (Hq 3%Q 4%Q eq_refl)
                (Hq 0%Q 1%Q eq_refl) (Hq 3%Q 4%Q eq_refl)) as X.
  destruct X as (h' & S' & E & Ei & Ea & _ & _ & _ & Eb).
  exists h', S'. split; [exact E|]. split; [exact Ei|].
  split; [rewrite Ea; reflexivity|exact Eb].
Defined.

Lemma within_trans a b c : within a b -> within b c -> within a c.
Proof. unfold within. intros (-> & ?) (-> & ?). split; [reflexivity|lia]. Qed.

Lemma within_cols_from a k : within (cols_view a (slice_from (ncols a) k)) a.
Proof.
  pose proof (slice_index_le (ncols a) k).
  unfold within, cols_view, slice_from. cbn. split; [reflexivity|lia].
Qed.

Lemma within_cols_upto a k : within (cols_view a (slice_upto (ncols a) k)) a.
Proof.
  pose proof (slice_index_le (ncols a) k).
  unfold within, cols_view, slice_upto. cbn. split; [reflexivity|lia].
Qed.

Lemma within_rows_from a k : within (rows_view a (slice_from (nrows a) k)) a.
Proof.
  pose proof (slice_index_le (nrows a) k).
  unfold within, rows_view, slice_from. cbn. split; [reflexivity|lia].
Qed.

Lemma within_rows_upto a k : within (rows_view a (slice_upto (nrows a) k)) a.
Proof.
  pose proof (slice_index_le (nrows a) k).
  unfold within, rows_view, slice_upto. cbn. split; [reflexivity|lia].
Qed.

Section ArrayHas.
Variables (c t : loc) (P : ndarray -> Prop).

Lemma array_has_get {A} (k : Image -> M A) :
  (forall s, P (array s) -> stable (array_has c P) (k s)) ->
  stable (array_has c P) (bind (get_image c) k).
Proof.
  intros Hk h HJ. pose proof HJ as (S & ES & HP).
  unfold bind, get_image. rewrite ES. apply Hk; assumption.
Qed.

Lemma array_has_set_array a :
  P a -> stable (array_has c P) (update_image c (with_array a)).
Proof.
  intros Ha h (S & ES & HP). unfold update_image. rewrite ES.
  eexists. split; [cbn; apply lookup_insert_eq|exact Ha].
Qed.

Lemma array_has_set_attr f :
  (forall i, array (f i) = array i) ->
  stable (array_has c P) (update_image c f).
Proof.
  intros Hf h (S & ES & HP). unfold update_image. rewrite ES.
  eexists. split; [cbn; apply lookup_insert_eq|]. rewrite Hf. exact HP.
Qed.
End ArrayHas.

(** X14. The trims only shrink the array of the copy: whether [trim]
    returns or raises, the array of the copy is afterwards a window of the
    array it had before, on the same block. *)
Theorem trim_shrinks c t h S :
  images h !! c = Some S ->
  exists S', images (snd (trim c t h)) !! c = Some S' /\
             within (array S') (array S).
Proof.
  intros ES.
  assert (St : stable (array_has c (fun a => within a (array S))) (trim c t)).
  { unfold trim, trim_xmin, trim_xmax, trim_ymin, trim_ymax, refresh.
    cbv zeta.
    repeat first
      [ apply stable_ret | apply stable_raise
      | apply array_has_get; intros ? ?
      | apply stable_get_image
      | apply stable_py_gt | apply stable_edge_index
      | apply array_has_set_array;
        (eapply within_trans;
         [first [apply within_cols_from | apply within_cols_upto
                |apply within_rows_from | apply within_rows_upto]
         |assumption])
      | apply array_has_set_attr; intros ?; reflexivity
      | apply stable_bind; [|intros ?]
      | match goal with
        | |- stable _ (if ?b then _ else _) => destruct b
        end ]. }
  apply St. exists S. split; [exact ES|apply within_refl].
Qed.

Lemma trim_shrinks_witness :
  let h1 := snd (Scenario.resampled Scenario.middle_columns) in
  exists S', images (snd (trim 2%nat Scenario.target h1)) !! 2%nat = Some S' /\
             within (array S') (whole 3 1 8).
Proof.
  intros h1.
  refine (trim_shrinks 2%nat Scenario.target h1
            (mkImage (whole 3 1 8) 8 1 (Some 0%Q) (Some 0%Q) (Some 0%Q)
                     (Some 8%Q) (Some 1%Q) (Some 10%Q)) _).
  vm_compute. reflexivity.
Defined.

(** ** Resampling at equal density *)

Lemma zoom_shape_1 n : zoom_shape n 1 = Z.of_nat n.
Proof.
  unfold zoom_shape.
  assert (E : (qn n * 1 == inject_Z (Z.of_nat n))%Q) by (unfold qn; ring).
  unfold py_round. cbv zeta. rewrite (Qfloor_comp _ _ E). rewrite Qfloor_Z.
  replace (qn n * 1 - inject_Z (Z.of_nat n) ?= 1 # 2)%Q with Lt; [reflexivity|].
  symmetry. apply Qlt_alt.
  assert (E' : (qn n * 1 - inject_Z (Z.of_nat n) == 0)%Q) by (rewrite E; ring).
  rewrite E'. reflexivity.
Qed.

Lemma zoom_length_1 n : zoom_length n 1 = n.
Proof. unfold zoom_length. rewrite zoom_shape_1. apply Nat2Z.id. Qed.

(** With as many output cells as input cells every index reads itself. *)
Lemma zoom_index_id n j : (j < n)%nat -> zoom_index n n j = j.
Proof.
  intros Hj. destruct (Nat.eq_dec n 1%nat) as [E|E].
  - subst n. assert (j = 0)%nat by lia. subst j. reflexivity.
  - pose proof (zoom_index_div n n j ltac:(lia) ltac:(lia)) as D.
    apply Nat2Z.inj. rewrite D.
    symmetry. apply Z.div_unique with (r := Z.of_nat n - 1); lia.
Qed.

Lemma to_uint16_unit v : 0 <= v < 65536 -> to_uint16 (qz v * 1) = v.
Proof.
  intros Hv. rewrite Qmult_1_r_eq. unfold qz.
  rewrite to_uint16_floor.
  - apply Qfloor_Z.
  - change 0%Q with (inject_Z 0). rewrite <- Zle_Qle. lia.
  - change 65535%Q with (inject_Z 65535). rewrite <- Zle_Qle. lia.
Qed.

(** X15. At equal density and equal height scale (all three factors 1)
    the resampling of lines 93-98 is the vertical flip of line 94 and
    nothing else: the copy gets a new array of the shape of the old one
    whose row [j] is the old row [rows - 1 - j], for cells in the 16-bit
    range; its bounds are as before. *)
Theorem resample_unit_flips c h S :
  images h !! c = Some S ->
  (forall r k, (r < nrows (array S))%nat -> (k < ncols (array S))%nat ->
               0 <= view_cell h (array S) r k < 65536) ->
  exists h' S',
    resample c 1 (1%Q, 1%Q) h = (Ok tt, h') /\
    images h' !! c = Some S' /\
    shape (array S') = shape (array S) /\
    bounds S' = bounds S /\
    blocks h !! base (array S') = None /\
    forall j i, (j < nrows (array S))%nat -> (i < ncols (array S))%nat ->
      view_cell h' (array S') j i
      = view_cell h (array S) (nrows (array S) - 1 - j) i.
Proof.
  intros ES Hr.
  assert (G : refused (nrows (array S)) (ncols (array S)) 1 1 = false).
  { unfold refused. rewrite !zoom_shape_1. apply orb_false_iff.
    split; apply Z.ltb_ge; lia. }
  pose proof (resample_run c 1 (1%Q, 1%Q) h S ES G) as R. cbv zeta in R.
  cbn [fst snd] in R. rewrite !zoom_length_1 in R.
  eexists _, _. split; [exact R|].
  cbn [images]. rewrite lookup_insert_eq. split; [reflexivity|].
  split; [reflexivity|]. split; [reflexivity|].
  cbn [array with_shape with_array base whole].
  split; [apply fresh_lookup|].
  intros j i Hj Hi. unfold view_cell at 1, block_of.
  cbn [blocks base row0 col0 whole]. rewrite lookup_insert_eq.
  cbn [default from_option id]. rewrite !Nat.add_0_l.
  unfold zoom_cells.
  rewrite cell_tabulate by assumption. rewrite !zoom_index_id by assumption.
  rewrite cell_flip_scale by assumption. apply to_uint16_unit.
  apply Hr; [lia|exact Hi].
Qed.

Lemma resample_unit_flips_witness :
  exists h' S',
    resample 0%nat 1 (1%Q, 1%Q) Scenario.mirror = (Ok tt, h') /\
    images h' !! 0%nat = Some S' /\
    view_cell h' (array S') 0 0 = 0 /\ view_cell h' (array S') 1 0 = 5.
Proof.
  assert (Hr : forall r k, (r < 2)%nat -> (k < 1)%nat ->
             0 <= view_cell Scenario.mirror (whole 0 2 1) r k < 65536).
  { intros r k Hr Hk.
    destruct r as [|[|r]]; [| |lia]; (destruct k as [|k]; [|lia]);
      vm_compute; split; first [reflexivity | intros H; discriminate H]. }
  destruct (resample_unit_flips 0%nat Scenario.mirror
              (Scenario.tile 0 2 1 0 1 0 2 0 10) eq_refl Hr)
    as (h' & S' & E & Ei & Es & _ & _ & Hc).
  exists h', S'. split; [exact E|]. split; [exact Ei|].
  split.
  - rewrite (Hc 0%nat 0%nat) by (cbn; lia). vm_compute. reflexivity.
  - rewrite (Hc 1%nat 0%nat) by (cbn; lia). vm_compute. reflexivity.
Defined.

(** ** A source beside the target *)

Lemma write_window_empty a f g : ncols a = 0%nat -> write_window a f g = g.
Proof.
  intros Hc. unfold write_window.
  assert (Hw : forall r c, in_window a r c = false).
  { intros r c. unfold in_window. rewrite Hc.
    destruct (col0 a <=? c)%nat eqn:E1; [|rewrite andb_false_r; reflexivity].
    apply Nat.leb_le in E1.
    replace (c <? col0 a + 0)%nat with false; [apply andb_false_r|].
    symmetry. apply Nat.ltb_ge. lia. }
  apply list_eq. intros r. rewrite list_lookup_imap.
  destruct (g !! r) as [row|]; [|reflexivity].
  cbn [fmap option_fmap option_map]. f_equal.
  apply list_eq. intros c. rewrite list_lookup_imap.
  destruct (row !! c) as [x|]; [|reflexivity].
  cbn [fmap option_fmap option_map]. rewrite Hw. reflexivity.
Qed.

Lemma alter_id_eq {V} (f : V -> V) (m : gmap nat V) k :
  (forall x, f x = x) -> alter f k m = m.
Proof.
  intros Hf. apply map_eq. intros i. rewrite lookup_alter.
  destruct (decide (k = i)) as [->|]; [|reflexivity].
  destruct (m !! i); cbn; [rewrite Hf|]; reflexivity.
Qed.

(** The window of the target is never wider than the copy. *)
Lemma place_window_cols c t S T h sub a h' :
  images h !! c = Some S -> images h !! t = Some T ->
  0 <= width S ->
  place c t h = (Ok (sub, a), h') ->
  (ncols sub <= Z.to_nat (width S))%nat.
Proof.
  intros ES ET Hw E. unfold place in E.
  rewrite (bind_run _ _ _ _ _ (get_image_run _ _ _ ES)) in E.
  rewrite (bind_run _ _ _ _ _ (get_image_run _ _ _ ET)) in E.
  apply bind_ok in E as (imin & h1 & E1 & E). apply edge_index_ok in E1 as ->.
  apply bind_ok in E as (jmin & h1 & E1 & E). apply edge_index_ok in E1 as ->.
  cbv zeta in E. set (sub' := cols_view _ _) in E.
  assert (Hs : sub = sub').
  { destruct (decide (shape sub' = shape (array S))).
    - cbv [bind ret] in E. rewrite (get_image_run _ _ _ ES) in E.
      injection E as <- _ _. reflexivity.
    - apply bind_ok in E as (? & h1 & E1 & E).
      apply bind_ok in E as (? & h2 & _ & E). injection E as <- _ _.
      reflexivity. }
  rewrite Hs. subst sub'. cbn [ncols cols_view snd].
  apply slice_range_length. exact Hw.
Qed.

Lemma stable_no_columns c t :
  stable (array_has c (fun a => ncols a = 0%nat))
         (trim_xmax c t ;;; trim_ymin c t ;;; trim_ymax c t ;;; refresh c).
Proof.
  unfold trim_xmax, trim_ymin, trim_ymax, refresh. cbv zeta.
  repeat first
    [ apply stable_ret | apply stable_raise
    | apply array_has_get; intros ? ?
    | apply stable_get_image
    | apply stable_py_gt | apply stable_edge_index
    | apply array_has_set_array;
      cbn [ncols cols_view rows_view slice_upto slice_from snd];
      first [assumption
            |match goal with
             | H : ncols ?a = 0%nat |- slice_index (ncols ?a) ?k = 0%nat =>
                 pose proof (slice_index_le (ncols a) k); lia
             end]
    | apply array_has_set_attr; intros ?; reflexivity
    | apply stable_bind; [|intros ?]
    | match goal with
      | |- stable _ (if ?b then _ else _) => destruct b
      end ].
Qed.

(** The column index of the [xmin] trim when the source ends at or before
    the target's left edge is at least the width. *)
Lemma left_index w sx0 sx1 tx0 :
  0 <= w -> (sx0 < sx1)%Q -> (sx1 <= tx0)%Q ->
  w <= py_int (qz w * (tx0 - sx0) / (sx1 - sx0)).
Proof.
  intros Hw Hlt Hle.
  assert (Hr : (0 < sx1 - sx0)%Q) by (apply Qlt_minus_iff in Hlt; exact Hlt).
  assert (Hd : (sx1 - sx0 <= tx0 - sx0)%Q).
  { unfold Qminus. apply Qplus_le_compat; [exact Hle|apply Qle_refl]. }
  assert (Hq : (qz w <= qz w * (tx0 - sx0) / (sx1 - sx0))%Q).
  { apply Qle_shift_div_l; [exact Hr|].
    rewrite (Qmult_comm (qz w) (sx1 - sx0)), (Qmult_comm (qz w) (tx0 - sx0)).
    apply Qmult_le_compat_r; [exact Hd|].
    unfold qz. change 0%Q with (inject_Z 0). rewrite <- Zle_Qle. exact Hw. }
  assert (H0 : (0 <= qz w * (tx0 - sx0) / (sx1 - sx0))%Q).
  { eapply Qle_trans; [|exact Hq].
    unfold qz. change 0%Q with (inject_Z 0). rewrite <- Zle_Qle. exact Hw. }
  unfold py_int.
  replace (Qle_bool 0 (qz w * (tx0 - sx0) / (sx1 - sx0))) with true
    by (symmetry; apply Qle_bool_iff; exact H0).
  rewrite <- (Qfloor_Z w) at 1. apply Qfloor_resp_le. exact Hq.
Qed.

(** When the source ends at or before the left edge of the target, the
    window of the target has no columns. *)
Lemma left_of_target_window s t h S T sx0 sx1 tx0 sub a h1 :
  images h !! s = Some S -> images h !! t = Some T ->
  xmin S = Some sx0 -> xmax S = Some sx1 -> xmin T = Some tx0 ->
  (sx0 < sx1)%Q -> (sx1 <= tx0)%Q ->
  prepare s t h = (Ok (Some (sub, a)), h1) ->
  ncols sub = 0%nat.
Proof.
  intros ES ET Ex0 Ex1 Et0 Hlt Hle E.
  apply prepare_ok in E
    as (zs & scale & c & h2 & h3 & h4 & _ & _ & _ & Ec & Er & Et & Ep).
  pose proof Ec as Ec'. apply copy_ok in Ec' as (S' & ES' & Hc & ->).
  rewrite ES in ES'. injection ES' as <-.
  assert (Fc : images h !! c = None) by (subst c; apply fresh_lookup).
  assert (N : c <> t) by (intros ->; rewrite ET in Fc; discriminate).
  assert (EcS : images (copy_heap S h) !! c = Some S)
    by (subst c; unfold copy_heap; cbn [images]; apply lookup_insert_eq).
  assert (K2 : keeps h (copy_heap S h)) by apply keeps_fresh_inserts.
  assert (K3 : keeps h h3)
    by exact (stable_run _ _ _ _ _ (stable_resample h c Fc zs scale) K2 Er).
  assert (K4 : keeps h h4)
    by exact (stable_run _ _ _ _ _ (stable_trim h c t Fc) K3 Et).
  pose proof (resample_run c zs scale _ S EcS
                (resample_ok _ _ _ _ _ _ _ EcS Er)) as R. cbv zeta in R.
  rewrite R in Er. injection Er as Eh3.
  set (m' := zoom_length (ncols (array S)) (snd scale)) in *.
  set (n' := zoom_length (nrows (array S)) (fst scale)) in *.
  set (l := fresh (dom (blocks (copy_heap S h)))) in *.
  set (S3 := with_shape (Z.of_nat n') (Z.of_nat m') (with_array (whole l n' m') S))
    in *.
  assert (ES3 : images h3 !! c = Some S3)
    by (rewrite <- Eh3; cbn [images]; apply lookup_insert_eq).
  pose proof (keeps_image _ _ _ _ K3 ET) as ET3.
  assert (Hnz : ~ (sx1 - sx0 == 0)%Q).
  { intros H. apply Qlt_minus_iff in Hlt. rewrite H in Hlt.
    exact (Qlt_irrefl 0 Hlt). }
  pose proof (trim_xmin_clip c t h3 S3 T sx0 tx0 sx1 ES3 ET3 Ex0 Et0 Ex1
                (Qlt_le_trans _ _ _ Hlt Hle) Hnz) as Ex. cbv zeta in Ex.
  unfold trim in Et. apply bind_ok in Et as (u & hx & Ex' & Erest).
  rewrite Ex in Ex'. injection Ex' as _ <-.
  assert (J : array_has c (fun a => ncols a = 0%nat) h4).
  { refine (stable_run _ _ _ _ _ (stable_no_columns c t) _ Erest).
    eexists. split; [cbn [images set_images]; apply lookup_insert_eq|].
    cbn [array with_array with_xmin ncols cols_view slice_from snd S3
         with_shape whole].
    pose proof (left_index (Z.of_nat m') sx0 sx1 tx0
                  (Nat2Z.is_nonneg m') Hlt Hle) as Hi.
    cbn [width with_shape S3] in *.
    unfold slice_index. destruct (_ <? 0) eqn:En;
      [apply Z.ltb_lt in En|apply Z.ltb_ge in En]; lia. }
  destruct J as (S4 & ES4 & Hn4).
  assert (Et4 : trim c t h3 = (Ok tt, h4)).
  { unfold trim. rewrite (bind_run _ _ _ _ _ Ex). exact Erest. }
  apply trim_ok in Et4 as (S4' & ES4' & _ & Hw4).
  rewrite ES4 in ES4'. injection ES4' as <-.
  pose proof (place_window_cols c t S4 T h4 sub a h1 ES4
                (keeps_image _ _ _ _ K4 ET) ltac:(lia) Ep) as Hs.
  rewrite Hw4, Hn4 in Hs. cbn in Hs. lia.
Qed.

(** X16. A source whose x bounds are whole numbers of at most 32768 in
    absolute value and which ends at or before the left edge of the target
    ([source.xmax <= target.xmin], with [source.xmin < source.xmax])
    changes nothing that was in the store: whether the call returns or
    raises, every block, the target's grid with them, and every image is
    as before.  For such bounds the extent [xmax - xmin] of the source and
    its product with a width are whole numbers that a double holds, so the
    index that the program computes in doubles is not below the exact
    one. *)
Theorem blit_onto_left_of_target s t h S T (sx0 sx1 : Z) tx0 :
  images h !! s = Some S -> images h !! t = Some T ->
  xmin S = Some (inject_Z sx0) -> xmax S = Some (inject_Z sx1) ->
  xmin T = Some tx0 ->
  Z.abs sx0 <= 32768 -> Z.abs sx1 <= 32768 ->
  sx0 < sx1 -> (inject_Z sx1 <= tx0)%Q ->
  keeps h (snd (blit_onto s t h)).
Proof.
  intros ES ET Ex0 Ex1 Et0 _ _ Hlt Hle.
  rewrite Zlt_Qlt in Hlt.
  pose proof (prepare_keeps s t h) as K.
  unfold blit_onto, bind.
  destruct (prepare s t h) as [[[[sub a]|]|e] h1] eqn:Ep;
    cbn [fst snd ret] in *; try exact K.
  pose proof (left_of_target_window s t h S T _ _ tx0 sub a h1
                ES ET Ex0 Ex1 Et0 Hlt Hle Ep) as Hn.
  unfold copyto_greater. destruct (decide _); cbn [fst snd]; [|exact K].
  unfold set_blocks.
  rewrite alter_id_eq by (intros g; apply write_window_empty; exact Hn).
  destruct h1; exact K.
Qed.

Lemma blit_onto_left_of_target_witness :
  let h := Scenario.two_tiles
             (replicate 4 (replicate 4 0)) (Scenario.tile 0 4 4 4 8 0 4 0 10)
             (replicate 4 (replicate 4 9)) (Scenario.tile 1 4 4 0 4 0 4 0 10) in
  fst (blit_onto Scenario.source Scenario.target h) = Ok (Some Scenario.target)
  /\ keeps h (snd (blit_onto Scenario.source Scenario.target h)).
Proof.
  intros h. split; [vm_compute; reflexivity|].
  assert (Hq : forall a b : Q, Qle_bool a b = true -> (a <= b)%Q)
    by (intros a b; apply Qle_bool_iff).
  refine (blit_onto_left_of_target Scenario.source Scenario.target h
            (Scenario.tile 1 4 4 0 4 0 4 0 10)
            (Scenario.tile 0 4 4 4 8 0 4 0 10)
            0 4 4 _ _ eq_refl eq_refl eq_refl _ _ _ (Hq 4%Q 4%Q eq_refl)).
  - vm_compute. reflexivity.
  - vm_compute. reflexivity.
  - vm_compute. discriminate.
  - vm_compute. discriminate.
  - reflexivity.
Defined.

Lemma trim_xmax_clip c t h S T sx0 sx1 tx1 :
  images h !! c = Some S -> images h !! t = Some T ->
  xmin S = Some sx0 -> xmax S = Some sx1 -> xmax T = Some tx1 ->
  (tx1 < sx1)%Q -> ~ (sx1 - sx0 == 0)%Q ->
  let i := py_int (qz (width S) * (tx1 - sx1) / (sx1 - sx0)) in
  trim_xmax c t h =
    (Ok tt,
     set_images
       (insert c (with_array
                    (cols_view (array S) (slice_upto (ncols (array S)) i))
                    (with_xmax (Some tx1) S))) h).
Proof.
  intros ES ET Es EX Et Hlt Hnz i. unfold trim_xmax.
  rewrite (bind_run _ _ _ _ _ (get_image_run _ _ _ ES)).
  rewrite (bind_run _ _ _ _ _ (get_image_run _ _ _ ET)).
  rewrite Es, Et, EX.
  cbv [py_gt edge_index py_sub py_div num bind ret raise Qlt_bool].
  replace (Qle_bool sx1 tx1) with false.
  2:{ symmetry. apply not_true_is_false. intros H.
      apply Qle_bool_iff in H. apply (Qlt_not_le _ _ Hlt H). }
  cbn [negb]. rewrite (Qeq_bool_false _ _ Hnz).
  unfold update_image, get_image. rewrite ES.
  unfold set_images. cbn [images blocks].
  rewrite (lookup_insert_eq (images h)). cbn [images blocks].
  rewrite (lookup_insert_eq (images h)). cbn [images blocks].
  rewrite insert_insert_eq. reflexivity.
Qed.

(** The column index of the [xmax] trim when the source begins at or after
    the target's right edge is at most minus the width. *)
Lemma right_index w sx0 sx1 tx1 :
  0 <= w -> (sx0 < sx1)%Q -> (tx1 <= sx0)%Q ->
  py_int (qz w * (tx1 - sx1) / (sx1 - sx0)) <= - w.
Proof.
  intros Hw Hlt Hle.
  assert (Hr : (0 < sx1 - sx0)%Q) by (apply Qlt_minus_iff in Hlt; exact Hlt).
  assert (Hw' : (0 <= qz w)%Q)
    by (unfold qz; change 0%Q with (inject_Z 0); rewrite <- Zle_Qle; exact Hw).
  assert (Hd : (tx1 - sx1 <= - (sx1 - sx0))%Q).
  { assert (E1 : (- (sx1 - sx0) == sx0 + - sx1)%Q) by ring.
    rewrite E1. unfold Qminus.
    apply Qplus_le_compat; [exact Hle|apply Qle_refl]. }
  assert (Hq : (qz w * (tx1 - sx1) / (sx1 - sx0) <= inject_Z (- w))%Q).
  { apply Qle_shift_div_r; [exact Hr|].
    assert (E2 : (inject_Z (- w) * (sx1 - sx0) == qz w * - (sx1 - sx0))%Q)
      by (unfold qz; rewrite inject_Z_opp; ring).
    rewrite E2.
    rewrite (Qmult_comm (qz w) (tx1 - sx1)), (Qmult_comm (qz w) (- (sx1 - sx0))).
    apply Qmult_le_compat_r; assumption. }
  unfold py_int. destruct (Qle_bool 0 _).
  - rewrite <- (Qfloor_Z (- w)). apply Qfloor_resp_le. exact Hq.
  - rewrite <- (Qceiling_Z (- w)). apply Qceiling_resp_le. exact Hq.
Qed.

Lemma stable_no_columns_rows c t :
  stable (array_has c (fun a => ncols a = 0%nat))
         (trim_ymin c t ;;; trim_ymax c t ;;; refresh c).
Proof.
  unfold trim_ymin, trim_ymax, refresh. cbv zeta.
  repeat first
    [ apply stable_ret | apply stable_raise
    | apply array_has_get; intros ? ?
    | apply stable_get_image
    | apply stable_py_gt | apply stable_edge_index
    | apply array_has_set_array; cbn [ncols rows_view]; assumption
    | apply array_has_set_attr; intros ?; reflexivity
    | apply stable_bind; [|intros ?]
    | match goal with
      | |- stable _ (if ?b then _ else _) => destruct b
      end ].
Qed.

(** When the source begins at or after the right edge of the target, the
    window of the target has no columns. *)
Lemma right_of_target_window s t h S T sx0 sx1 tx0 tx1 sub a h1 :
  images h !! s = Some S -> images h !! t = Some T ->
  xmin S = Some sx0 -> xmax S = Some sx1 ->
  xmin T = Some tx0 -> xmax T = Some tx1 ->
  (sx0 < sx1)%Q -> (tx0 <= tx1)%Q -> (tx1 <= sx0)%Q ->
  prepare s t h = (Ok (Some (sub, a)), h1) ->
  ncols sub = 0%nat.
Proof.
  intros ES ET Ex0 Ex1 Et0 Et1 Hlt Ht Hle E.
  apply prepare_ok in E
    as (zs & scale & c & h2 & h3 & h4 & _ & _ & _ & Ec & Er & Et & Ep).
  pose proof Ec as Ec'. apply copy_ok in Ec' as (S' & ES' & Hc & ->).
  rewrite ES in ES'. injection ES' as <-.
  assert (Fc : images h !! c = None) by (subst c; apply fresh_lookup).
  assert (EcS : images (copy_heap S h) !! c = Some S)
    by (subst c; unfold copy_heap; cbn [images]; apply lookup_insert_eq).
  assert (K2 : keeps h (copy_heap S h)) by apply keeps_fresh_inserts.
  assert (K3 : keeps h h3)
    by exact (stable_run _ _ _ _ _ (stable_resample h c Fc zs scale) K2 Er).
  assert (K4 : keeps h h4)
    by exact (stable_run _ _ _ _ _ (stable_trim h c t Fc) K3 Et).
  pose proof (resample_run c zs scale _ S EcS
                (resample_ok _ _ _ _ _ _ _ EcS Er)) as R. cbv zeta in R.
  rewrite R in Er. injection Er as Eh3.
  set (m' := zoom_length (ncols (array S)) (snd scale)) in *.
  set (n' := zoom_length (nrows (array S)) (fst scale)) in *.
  set (l := fresh (dom (blocks (copy_heap S h)))) in *.
  set (S3 := with_shape (Z.of_nat n') (Z.of_nat m') (with_array (whole l n' m') S))
    in *.
  assert (ES3 : images h3 !! c = Some S3)
    by (rewrite <- Eh3; cbn [images]; apply lookup_insert_eq).
  pose proof (keeps_image _ _ _ _ K3 ET) as ET3.
  assert (Hnz : ~ (sx1 - sx0 == 0)%Q).
  { intros H. apply Qlt_minus_iff in Hlt. rewrite H in Hlt.
    exact (Qlt_irrefl 0 Hlt). }
  pose proof (trim_xmin_skip c t h3 S3 T sx0 tx0 ES3 ET3 Ex0 Et0
                (Qle_trans _ _ _ Ht Hle)) as Ex.
  pose proof (trim_xmax_clip c t h3 S3 T sx0 sx1 tx1 ES3 ET3 Ex0 Ex1 Et1
                (Qle_lt_trans _ _ _ Hle Hlt) Hnz) as EX. cbv zeta in EX.
  pose proof Et as Et4.
  unfold trim in Et. rewrite (bind_run _ _ _ _ _ Ex) in Et.
  rewrite (bind_run _ _ _ _ _ EX) in Et.
  assert (J : array_has c (fun a => ncols a = 0%nat) h4).
  { refine (stable_run _ _ _ _ _ (stable_no_columns_rows c t) _ Et).
    eexists. split; [cbn [images set_images]; apply lookup_insert_eq|].
    cbn [array with_array with_xmax ncols cols_view slice_upto snd S3
         with_shape whole].
    pose proof (right_index (Z.of_nat m') sx0 sx1 tx1
                  (Nat2Z.is_nonneg m') Hlt Hle) as Hi.
    cbn [width with_shape S3] in *.
    unfold slice_index. destruct (_ <? 0) eqn:En;
      [apply Z.ltb_lt in En|apply Z.ltb_ge in En]; lia. }
  destruct J as (S4 & ES4 & Hn4).
  apply trim_ok in Et4 as (S4' & ES4' & _ & Hw4).
  rewrite ES4 in ES4'. injection ES4' as <-.
  pose proof (place_window_cols c t S4 T h4 sub a h1 ES4
                (keeps_image _ _ _ _ K4 ET) ltac:(lia) Ep) as Hs.
  rewrite Hw4, Hn4 in Hs. cbn in Hs. lia.
Qed.

(** X17. A source whose x bounds are whole numbers of at most 32768 in
    absolute value and which begins at or after the right edge of the
    target ([target.xmax <= source.xmin], with [source.xmin < source.xmax]
    and [target.xmin <= target.xmax]) changes nothing that was in the
    store: whether the call returns or raises, every block, the target's
    grid with them, and every image is as before.  For such bounds the
    index that the program computes in doubles is not above the exact
    one. *)
Theorem blit_onto_right_of_target s t h S T (sx0 sx1 : Z) tx0 tx1 :
  images h !! s = Some S -> images h !! t = Some T ->
  xmin S = Some (inject_Z sx0) -> xmax S = Some (inject_Z sx1) ->
  xmin T = Some tx0 -> xmax T = Some tx1 ->
  Z.abs sx0 <= 32768 -> Z.abs sx1 <= 32768 ->
  sx0 < sx1 -> (tx0 <= tx1)%Q -> (tx1 <= inject_Z sx0)%Q ->
  keeps h (snd (blit_onto s t h)).
Proof.
  intros ES ET Ex0 Ex1 Et0 Et1 _ _ Hlt Ht Hle.
  rewrite Zlt_Qlt in Hlt.
  pose proof (prepare_keeps s t h) as K.
  unfold blit_onto, bind.
  destruct (prepare s t h) as [[[[sub a]|]|e] h1] eqn:Ep;
    cbn [fst snd ret] in *; try exact K.
  pose proof (right_of_target_window s t h S T _ _ tx0 tx1 sub a h1
                ES ET Ex0 Ex1 Et0 Et1 Hlt Ht Hle Ep) as Hn.
  unfold copyto_greater. destruct (decide _); cbn [fst snd]; [|exact K].
  unfold set_blocks.
  rewrite alter_id_eq by (intros g; apply write_window_empty; exact Hn).
  destruct h1; exact K.
Qed.

Lemma blit_onto_right_of_target_witness :
  let h := Scenario.two_tiles
             (replicate 4 (replicate 4 0)) (Scenario.tile 0 4 4 0 4 0 4 0 10)
             (replicate 4 (replicate 4 9)) (Scenario.tile 1 4 4 4 8 0 4 0 10) in
  fst (blit_onto Scenario.source Scenario.target h) = Ok (Some Scenario.target)
  /\ keeps h (snd (blit_onto Scenario.source Scenario.target h)).
Proof.
  intros h. split; [vm_compute; reflexivity|].
  assert (Hq : forall a b : Q, Qle_bool a b = true -> (a <= b)%Q)
    by (intros a b; apply Qle_bool_iff).
  refine (blit_onto_right_of_target Scenario.source Scenario.target h
            (Scenario.tile 1 4 4 4 8 0 4 0 10)
            (Scenario.tile 0 4 4 0 4 0 4 0 10)
            4 8 0 4 _ _ eq_refl eq_refl eq_refl eq_refl _ _ _
            (Hq 0%Q 4%Q eq_refl) (Hq 4%Q 4%Q eq_refl)).
  - vm_compute. reflexivity.
  - vm_compute. reflexivity.
  - vm_compute. discriminate.
  - vm_compute. discriminate.
  - reflexivity.
Defined.

(** Below or above the target the same does not hold, because the row
    trims take their index from the width: a source of 4 rows and 2
    columns that lies entirely below the target keeps two rows after the
    [ymin] trim, and they are merged into the target. *)
Example below_target_paints :
  let h := Scenario.two_tiles
             (replicate 2 (replicate 2 0)) (Scenario.tile 0 2 2 0 2 4 6 0 10)
             (replicate 4 (replicate 2 9)) (Scenario.tile 1 4 2 0 2 0 4 0 10) in
  contents (snd (blit_onto Scenario.source Scenario.target h)) (whole 0 2 2)
  = [ [9; 9]; [9; 9] ].
Proof. vm_compute. reflexivity. Qed.
